(** * JsonCursor: a path-tracking cursor over JSON-like Python values

    Shallow embedding of [src/lib/json_cursor.py] (class [JsonCursor]) and
    the properties of its addressing, search and visit operations.

    Layout:
    - [PyVal]: the Python values a cursor can sit on, with the [isinstance]
      tests and the truthiness the source relies on;
    - [Res]: results of code that may raise;
    - [JsonCursor] and its methods, named as in the source;
    - an explicit-store model of the path list ([Module Aliasing]) for the
      one question that depends on object identity;
    - the theorems. *)

From stdpp Require Import base list strings gmap.
From Stdlib Require Import ZArith Lia Ascii.

Local Open Scope Z_scope.

(** ** Python values *)

(** The values of [JsonNodeType = Union[JsonValueType, Mapping, Sequence]].
    A [dict] and a [mappingproxy] are the two [Mapping]s modelled, a [list]
    and a [tuple] the two non-string [Sequence]s; [str], [bytes] and
    [bytearray] are [Sequence]s for [collections.abc] as well, and so is a
    [memoryview], the byte container that is none of those three classes: it
    is given by the items it yields when indexed or iterated (the [int]s
    [97] and [98] for [memoryview(b"ab")]). Mappings are association lists
    in enumeration (insertion) order with string keys; a [float] is carried
    by its binary64 bit pattern. *)
Unset Elimination Schemes.
Inductive PyVal : Type :=
| PyNone
| PyBool (b : bool)
| PyInt (z : Z)
| PyFloat (bits : Z)
| PyStr (s : string)
| PyBytes (bs : list Z)
| PyByteArray (bs : list Z)
| PyDict (entries : list (string * PyVal))
| PyMappingProxy (entries : list (string * PyVal))
| PyList (elems : list PyVal)
| PyTuple (elems : list PyVal)
| PyMemoryView (elems : list PyVal).
Set Elimination Schemes.

(** Induction over [PyVal] with the hypotheses for the nested lists. *)
Section PyVal_induction.
Variable P : PyVal -> Prop.
Hypothesis HNone : P PyNone.
Hypothesis HBool : forall b, P (PyBool b).
Hypothesis HInt : forall z, P (PyInt z).
Hypothesis HFloat : forall bits, P (PyFloat bits).
Hypothesis HStr : forall s, P (PyStr s).
Hypothesis HBytes : forall bs, P (PyBytes bs).
Hypothesis HByteArray : forall bs, P (PyByteArray bs).
Hypothesis HDict : forall entries,
    Forall (fun kv => P (snd kv)) entries -> P (PyDict entries).
Hypothesis HMappingProxy : forall entries,
    Forall (fun kv => P (snd kv)) entries -> P (PyMappingProxy entries).
Hypothesis HList : forall elems, Forall P elems -> P (PyList elems).
Hypothesis HTuple : forall elems, Forall P elems -> P (PyTuple elems).
Hypothesis HMemoryView : forall elems, Forall P elems -> P (PyMemoryView elems).

Fixpoint PyVal_nested_ind (v : PyVal) : P v :=
  let entries_ind :=
    fix go (kvs : list (string * PyVal)) : Forall (fun kv => P (snd kv)) kvs :=
      match kvs with
      | [] => List.Forall_nil _
      | kv :: rest => List.Forall_cons _ kv rest (PyVal_nested_ind (snd kv)) (go rest)
      end in
  let elems_ind :=
    fix go (xs : list PyVal) : Forall P xs :=
      match xs with
      | [] => List.Forall_nil _
      | x :: rest => List.Forall_cons _ x rest (PyVal_nested_ind x) (go rest)
      end in
  match v with
  | PyNone => HNone
  | PyBool b => HBool b
  | PyInt z => HInt z
  | PyFloat bits => HFloat bits
  | PyStr s => HStr s
  | PyBytes bs => HBytes bs
  | PyByteArray bs => HByteArray bs
  | PyDict entries => HDict entries (entries_ind entries)
  | PyMappingProxy entries => HMappingProxy entries (entries_ind entries)
  | PyList elems => HList elems (elems_ind elems)
  | PyTuple elems => HTuple elems (elems_ind elems)
  | PyMemoryView elems => HMemoryView elems (elems_ind elems)
  end.
End PyVal_induction.

(** [isinstance(v, dict)] *)
Definition isinstance_dict (v : PyVal) : bool :=
  match v with PyDict _ => true | _ => false end.

(** [isinstance(v, list)] *)
Definition isinstance_list (v : PyVal) : bool :=
  match v with PyList _ => true | _ => false end.

(** [isinstance(v, Mapping)], [collections.abc.Mapping] *)
Definition isinstance_Mapping (v : PyVal) : bool :=
  match v with PyDict _ | PyMappingProxy _ => true | _ => false end.

(** [isinstance(v, Sequence)], [collections.abc.Sequence] *)
Definition isinstance_Sequence (v : PyVal) : bool :=
  match v with
  | PyStr _ | PyBytes _ | PyByteArray _ | PyList _ | PyTuple _ | PyMemoryView _ => true
  | _ => false
  end.

(** [isinstance(v, (str, bytes, bytearray))] *)
Definition isinstance_str_bytes_bytearray (v : PyVal) : bool :=
  match v with PyStr _ | PyBytes _ | PyByteArray _ => true | _ => false end.

(** [v.items()] of a mapping, in enumeration order. *)
Definition items (v : PyVal) : list (string * PyVal) :=
  match v with PyDict kvs | PyMappingProxy kvs => kvs | _ => [] end.

(** The elements of a list, tuple or memoryview, in index order. *)
Definition elements (v : PyVal) : list PyVal :=
  match v with PyList xs | PyTuple xs | PyMemoryView xs => xs | _ => [] end.

(** [len(v)] of a list, tuple or memoryview. *)
Definition len (v : PyVal) : Z := Z.of_nat (length (elements v)).

(** [name in d] and [d[name]] on the entries of a dict. *)
Fixpoint dict_get (name : string) (kvs : list (string * PyVal)) : option PyVal :=
  match kvs with
  | [] => None
  | (k, v) :: rest => if String.eqb k name then Some v else dict_get name rest
  end.

(** Truth value of a Python object, as [if x:] tests it. *)
Definition truthy (v : PyVal) : bool :=
  match v with
  | PyNone => false
  | PyBool b => b
  | PyInt z => negb (z =? 0)
  | PyFloat bits => negb (Z.land bits (2 ^ 63 - 1) =? 0)
  | PyStr s => negb (String.eqb s EmptyString)
  | PyBytes bs | PyByteArray bs => negb (length bs =? 0)%nat
  | PyDict kvs | PyMappingProxy kvs => negb (length kvs =? 0)%nat
  | PyList xs | PyTuple xs | PyMemoryView xs => negb (length xs =? 0)%nat
  end.

(** [x is False]: identity with the singleton [False]. *)
Definition is_False (v : PyVal) : bool :=
  match v with PyBool false => true | _ => false end.

(** Keys are unique at every mapping of the tree, as they are in every
    Python mapping. *)
Fixpoint unique_keys (v : PyVal) : bool :=
  match v with
  | PyDict kvs | PyMappingProxy kvs =>
      bool_decide (NoDup (map fst kvs)) && forallb (fun kv => unique_keys (snd kv)) kvs
  | PyList xs | PyTuple xs | PyMemoryView xs => forallb unique_keys xs
  | _ => true
  end.

(** Every container of the tree is a [dict] or a [list], as in the trees
    [json.load] builds. *)
Fixpoint dict_list_only (v : PyVal) : bool :=
  match v with
  | PyDict kvs => forallb (fun kv => dict_list_only (snd kv)) kvs
  | PyList xs => forallb dict_list_only xs
  | PyMappingProxy _ | PyTuple _ | PyMemoryView _ => false
  | _ => true
  end.

(** ** Exceptions and results *)

Inductive PyExc : Type :=
| AttributeError (msg : string)
| IndexError (msg : string)
| TypeError (msg : string)
| Exception (name msg : string).

Inductive Res (A : Type) : Type :=
| Ok (a : A)
| Raise (e : PyExc).
Arguments Ok {A} a.
Arguments Raise {A} e.

(** The error kinds of the interface, as the source raises them. *)
Definition TypeMismatch : PyExc :=
  AttributeError "Current node is not a JSON object (dict)".
Definition KeyNotFound (name : string) : PyExc :=
  AttributeError ("Key '" +:+ name +:+ "' not found in current node").
Definition NotASequence : PyExc :=
  TypeError "Current node is not a JSON array (list)".
Definition IndexOutOfRange : PyExc :=
  IndexError "List index out of range".
Definition NotATerminal : PyExc :=
  TypeError "Current node is not a terminal JSON value".

(** ** The cursor *)

Inductive Segment : Type :=
| SKey (k : string)
| SIdx (i : Z).

Abbreviation Path := (list Segment).

Record JsonCursor : Type := mkCursor { node : PyVal; path : Path }.

(** [JsonCursor.__init__]: [self.path = path or []]. *)
Definition __init__ (n : PyVal) (p : option Path) : JsonCursor :=
  {| node := n; path := match p with Some l => l | None => [] end |}.

(** [JsonCursor.__getattr__] *)
Definition __getattr__ (self : JsonCursor) (name : string) : Res JsonCursor :=
  if isinstance_dict (node self) then
    match dict_get name (items (node self)) with
    | Some child => Ok (__init__ child (Some (path self ++ [SKey name])))
    | None => Raise (KeyNotFound name)
    end
  else Raise TypeMismatch.

(** [JsonCursor.__getitem__]; [self.node[index]] cannot fail inside the
    bounds test, the [None] branch is Python's own [IndexError]. *)
Definition __getitem__ (self : JsonCursor) (index : Z) : Res JsonCursor :=
  if isinstance_list (node self) then
    if (0 <=? index) && (index <? len (node self)) then
      match elements (node self) !! Z.to_nat index with
      | Some child => Ok (__init__ child (Some (path self ++ [SIdx index])))
      | None => Raise (IndexError "list index out of range")
      end
    else Raise IndexOutOfRange
  else Raise NotASequence.

(** [JsonCursor.value] *)
Definition value (self : JsonCursor) : Res PyVal :=
  if isinstance_dict (node self) || isinstance_list (node self)
  then Raise NotATerminal
  else Ok (node self).

(** [JsonCursor.get_path] *)
Definition get_path (self : JsonCursor) : Path := path self.

(** [JsonCursor.on_dict] *)
Definition on_dict (self : JsonCursor) : bool := isinstance_Mapping (node self).

(** [JsonCursor.on_list] *)
Definition on_list (self : JsonCursor) : bool :=
  let n := node self in
  isinstance_Sequence n && negb (isinstance_str_bytes_bytearray n).

(** [JsonCursor.on_data] *)
Definition on_data (self : JsonCursor) : bool :=
  negb (on_dict self || on_list self).

(** ** Search *)

(** The predicate is any callable: it returns a Python object or raises. *)
Definition Predicate : Type := JsonCursor -> Res PyVal.

(** [for key, value in d.items(): result = body(key, value); if result: return result],
    falling through to [None]. A [JsonCursor] defines neither [__bool__] nor
    [__len__], so [if result:] tests [result is not None]. *)
Definition search_items (body : string -> PyVal -> Res (option JsonCursor))
  : list (string * PyVal) -> Res (option JsonCursor) :=
  fix loop kvs :=
    match kvs with
    | [] => Ok None
    | (key, val) :: rest =>
        match body key val with
        | Raise e => Raise e
        | Ok (Some result) => Ok (Some result)
        | Ok None => loop rest
        end
    end.

(** The same loop over [enumerate(seq)], counting from [index]. *)
Definition search_enumerate (body : nat -> PyVal -> Res (option JsonCursor))
  : nat -> list PyVal -> Res (option JsonCursor) :=
  fix loop index xs :=
    match xs with
    | [] => Ok None
    | item :: rest =>
        match body index item with
        | Raise e => Raise e
        | Ok (Some result) => Ok (Some result)
        | Ok None => loop (S index) rest
        end
    end.

(** [_recursive_search] of [JsonCursor.search], on the cursor [(n, p)]. The
    match on [n] is the source's [isinstance(cursor.node, Mapping)] /
    [isinstance(cursor.node, Sequence) and not isinstance(cursor.node,
    (str, bytes, bytearray))] dispatch (see [dispatch_Mapping] and
    [dispatch_Sequence]). *)
Fixpoint _recursive_search (predicate : Predicate) (n : PyVal) (p : Path)
  : Res (option JsonCursor) :=
  let cursor := mkCursor n p in
  match predicate cursor with
  | Raise e => Raise e
  | Ok matched =>
      if truthy matched then Ok (Some cursor)
      else
        match n with
        | PyDict kvs | PyMappingProxy kvs =>
            search_items
              (fun key val => _recursive_search predicate val (p ++ [SKey key])) kvs
        | PyList xs | PyTuple xs | PyMemoryView xs =>
            search_enumerate
              (fun index item =>
                 _recursive_search predicate item (p ++ [SIdx (Z.of_nat index)])) 0 xs
        | _ => Ok None
        end
  end.

(** [JsonCursor.search] *)
Definition search (self : JsonCursor) (predicate : Predicate) : Res (option JsonCursor) :=
  _recursive_search predicate (node self) (path self).

(** ** Visit *)

(** The handler is a closure with effects of its own: it runs on a state [St],
    and returns a Python object or raises. *)
Section StateAndErrors.
Context {St : Type}.

Definition M (A : Type) : Type := St -> St * Res A.

Definition ret {A} (a : A) : M A := fun s => (s, Ok a).

Definition bind {A B} (m : M A) (k : A -> M B) : M B :=
  fun s =>
    match m s with
    | (s', Ok a) => k a s'
    | (s', Raise e) => (s', Raise e)
    end.
End StateAndErrors.
Arguments M St A : clear implicits.

Notation "'let*' x ':=' m 'in' k" := (bind m (fun x => k))
  (at level 10, x name, m at level 200, k at level 200, only parsing).

Definition Handler (St : Type) : Type := JsonCursor -> bool -> M St PyVal.

Section Visit.
Context {St : Type}.

(** [for x in xs: body(x)] *)
Definition for_each {A} (body : A -> M St unit) : list A -> M St unit :=
  fix loop xs :=
    match xs with
    | [] => ret tt
    | x :: rest => (let* _ := body x in loop rest)
    end.

(** [for key, value in d.items(): body(key, value)] *)
Definition for_items (body : string -> PyVal -> M St unit)
  : list (string * PyVal) -> M St unit :=
  fix loop kvs :=
    match kvs with
    | [] => ret tt
    | (key, val) :: rest => (let* _ := body key val in loop rest)
    end.

(** [for index, item in enumerate(seq): body(index, item)], counting from
    [index]. *)
Definition for_enumerate (body : nat -> PyVal -> M St unit)
  : nat -> list PyVal -> M St unit :=
  fix loop index xs :=
    match xs with
    | [] => ret tt
    | item :: rest => (let* _ := body index item in loop (S index) rest)
    end.

(** [_recursive_visit] of [JsonCursor.visit], on the cursor [(n, p)]. *)
Fixpoint _recursive_visit (handler : Handler St) (n : PyVal) (p : Path) : M St unit :=
  let cursor := mkCursor n p in
  let* continue_descent := handler cursor true in
  if is_False continue_descent then ret tt
  else
    (let* descended :=
       match n with
       | PyDict kvs | PyMappingProxy kvs =>
           (let* _ := for_items
                        (fun key val =>
                           _recursive_visit handler val (p ++ [SKey key])) kvs in
            ret true)
       | PyList xs | PyTuple xs | PyMemoryView xs =>
           (let* _ := for_enumerate
                        (fun index item =>
                           _recursive_visit handler item
                             (p ++ [SIdx (Z.of_nat index)])) 0%nat xs in
            ret true)
       | _ => ret false
       end in
     if descended : bool
     then (let* _ := handler cursor false in ret tt)
     else ret tt).

(** [JsonCursor.visit] *)
Definition visit (self : JsonCursor) (handler : Handler St) : M St unit :=
  _recursive_visit handler (node self) (path self).
End Visit.

(** ** The subtree of a cursor, in the words of the interface *)

(** [enumerate(xs)], counting from [i]. *)
Fixpoint enumerate_from {A} (i : nat) (xs : list A) : list (nat * A) :=
  match xs with
  | [] => []
  | x :: rest => (i, x) :: enumerate_from (S i) rest
  end.

(** The cursors one navigation step below [c]: mapping entries in
    enumeration order, sequence elements in index order; a terminal has
    none. *)
Definition children (c : JsonCursor) : list JsonCursor :=
  if on_dict c then
    map (fun kv => mkCursor (snd kv) (path c ++ [SKey (fst kv)])) (items (node c))
  else if on_list c then
    map (fun ix => mkCursor (snd ix) (path c ++ [SIdx (Z.of_nat (fst ix))]))
      (enumerate_from 0 (elements (node c)))
  else [].

(** [body(i, x)] for each element with its index, counting from [i], the
    results in one list. *)
Definition flat_enumerate {A B} (body : nat -> A -> list B) : nat -> list A -> list B :=
  fix go i l :=
    match l with
    | [] => []
    | x :: rest => body i x ++ go (S i) rest
    end.

(** The cursors of the subtree of [(n, p)] in depth-first pre-order: the
    parent, then the subtree of each child in turn. *)
Fixpoint subtree (n : PyVal) (p : Path) : list JsonCursor :=
  mkCursor n p ::
  match n with
  | PyDict kvs | PyMappingProxy kvs =>
      flat_map (fun kv => subtree (snd kv) (p ++ [SKey (fst kv)])) kvs
  | PyList xs | PyTuple xs | PyMemoryView xs =>
      flat_enumerate (fun i x => subtree x (p ++ [SIdx (Z.of_nat i)])) 0%nat xs
  | _ => []
  end.

Definition preorder (c : JsonCursor) : list JsonCursor := subtree (node c) (path c).


(** A handler call: the cursor and the [entering] flag. *)
Definition Call : Type := JsonCursor * bool.

(** The calls of an unpruned traversal of [(n, p)]: the entering call, and
    for a container the calls of each child in turn and then the exit
    call. *)
Fixpoint calls_from (n : PyVal) (p : Path) : list Call :=
  (mkCursor n p, true) ::
  match n with
  | PyDict kvs | PyMappingProxy kvs =>
      flat_map (fun kv => calls_from (snd kv) (p ++ [SKey (fst kv)])) kvs
        ++ [(mkCursor n p, false)]
  | PyList xs | PyTuple xs | PyMemoryView xs =>
      flat_enumerate (fun i x => calls_from x (p ++ [SIdx (Z.of_nat i)])) 0%nat xs
        ++ [(mkCursor n p, false)]
  | _ => []
  end.

Definition calls (c : JsonCursor) : list Call := calls_from (node c) (path c).

(** The handler that records each call it receives before running
    [handler]. *)
Definition logged {St} (handler : Handler St) : Handler (St * list Call) :=
  fun cursor entering st =>
    let (s', r) := handler cursor entering (fst st) in
    ((s', snd st ++ [(cursor, entering)]), r).

(** What [_recursive_visit] does after an entering call that does not
    prune: every child is visited in turn and a container gets its exit
    call. *)
Definition descend {St} (handler : Handler St) (c : JsonCursor) : M St unit :=
  if on_data c then ret tt
  else
    (let* _ := for_each (fun x => visit x handler) (children c) in
     let* _ := handler c false in
     ret tt).


(** A handler that neither prunes nor raises. *)
Definition non_pruning {St} (handler : Handler St) : Prop :=
  forall c entering s,
    exists s' v, handler c entering s = (s', Ok v) /\ (entering = true -> is_False v = false).

(** ** Replaying a path *)

(** One navigation step for a path segment: a key through [__getattr__],
    an index through [__getitem__]. *)
Definition step (c : JsonCursor) (seg : Segment) : Res JsonCursor :=
  match seg with
  | SKey name => __getattr__ c name
  | SIdx index => __getitem__ c index
  end.

(** Navigation from [c] through the segments of [p] in order. *)
Fixpoint navigate (c : JsonCursor) (p : Path) : Res JsonCursor :=
  match p with
  | [] => Ok c
  | seg :: rest =>
      match step c seg with
      | Ok c' => navigate c' rest
      | Raise e => Raise e
      end
  end.

(** The cursors reachable from the root cursor of [root] by navigation
    steps and, when [searching] is set, as results of [search]. *)
Inductive reachable (searching : bool) (root : PyVal) : JsonCursor -> Prop :=
| reach_root : reachable searching root (__init__ root None)
| reach_key c name c' :
    reachable searching root c -> __getattr__ c name = Ok c' ->
    reachable searching root c'
| reach_index c index c' :
    reachable searching root c -> __getitem__ c index = Ok c' ->
    reachable searching root c'
| reach_search c predicate c' :
    searching = true ->
    reachable searching root c -> search c predicate = Ok (Some c') ->
    reachable searching root c'.

(** ** The path as a list object *)

(** [self.path] holds a reference to a Python list, and [get_path] hands
    that reference out. Where object identity matters the lists live in a
    store and a cursor holds the reference; [abstract] gives the cursor of
    the model above that a stored cursor stands for. *)
Module Aliasing.

Definition ref : Type := nat.

Abbreviation Store := (gmap nat Path).

Record Cursor : Type := mkHeapCursor { node_of : PyVal; path_ref : ref }.

(** The contents of the list object at [r]. *)
Definition deref (σ : Store) (r : ref) : Path := default [] (σ !! r).

(** A new list object holding [l]. *)
Definition new_list (l : Path) (σ : Store) : ref * Store :=
  let r := fresh (dom σ) in (r, <[r := l]> σ).

(** [JsonCursor.__init__]: [self.path = path or []] keeps the caller's
    list object when it is non-empty and makes a new empty list
    otherwise. *)
Definition __init__ (n : PyVal) (p : option ref) (σ : Store) : Cursor * Store :=
  match p with
  | Some r =>
      match deref σ r with
      | _ :: _ => (mkHeapCursor n r, σ)
      | [] => let (r', σ') := new_list [] σ in (mkHeapCursor n r', σ')
      end
  | None => let (r', σ') := new_list [] σ in (mkHeapCursor n r', σ')
  end.

(** [JsonCursor.get_path]: [return self.path]. *)
Definition get_path (self : Cursor) : ref := path_ref self.

(** [JsonCursor.__getattr__]; [self.path + [name]] is a new list. *)
Definition __getattr__ (self : Cursor) (name : string) (σ : Store)
  : Res Cursor * Store :=
  if isinstance_dict (node_of self) then
    match dict_get name (items (node_of self)) with
    | Some child =>
        let (r, σ1) := new_list (deref σ (path_ref self) ++ [SKey name]) σ in
        let (c, σ2) := __init__ child (Some r) σ1 in
        (Ok c, σ2)
    | None => (Raise (KeyNotFound name), σ)
    end
  else (Raise TypeMismatch, σ).

(** A caller changing the list object at [r] in place ([append], [clear],
    [del l[i]], item assignment, ...): [f] maps the old contents to the
    new. *)
Definition mutate (f : Path -> Path) (r : ref) (σ : Store) : Store := alter f r σ.

(** [l.append(seg)] *)
Definition append (seg : Segment) : ref -> Store -> Store :=
  mutate (fun l => l ++ [seg]).

(** The cursor of the pure model that [c] stands for in [σ]. *)
Definition abstract (σ : Store) (c : Cursor) : JsonCursor :=
  mkCursor (node_of c) (deref σ (path_ref c)).

End Aliasing.

(** ** Statements compared with the code *)

(** The statement of C5 as the interface words it: the [Sequence]
    classification decides [NotASequence]. *)
Definition childByIndex_by_classification (c : JsonCursor) (i : Z) : Prop :=
  (__getitem__ c i = Raise NotASequence <-> on_list c = false) /\
  (on_list c = true ->
   (__getitem__ c i = Raise IndexOutOfRange <-> ~ (0 <= i < len (node c)))) /\
  (on_list c = true -> 0 <= i < len (node c) ->
   exists child, elements (node c) !! Z.to_nat i = Some child /\
                 __getitem__ c i = Ok (mkCursor child (path c ++ [SIdx i]))).

(** The statement of C6 as the interface words it: the [Mapping]
    classification decides [TypeMismatch]. *)
Definition childByKey_by_classification (c : JsonCursor) (name : string) : Prop :=
  (__getattr__ c name = Raise TypeMismatch <-> on_dict c = false) /\
  (on_dict c = true ->
   (__getattr__ c name = Raise (KeyNotFound name)
    <-> dict_get name (items (node c)) = None)) /\
  (on_dict c = true ->
   forall child, dict_get name (items (node c)) = Some child ->
                 __getattr__ c name = Ok (mkCursor child (path c ++ [SKey name]))).

(** The statement of C8: [get_path] hands out a copy, so that changing the
    returned list by [f] leaves the path of the cursor as it was. *)
Definition get_path_copies (σ : gmap nat Path) (c : Aliasing.Cursor)
    (f : Path -> Path) : Prop :=
  Aliasing.deref σ (Aliasing.get_path c) = Aliasing.deref σ (Aliasing.path_ref c) /\
  Aliasing.deref (Aliasing.mutate f (Aliasing.get_path c) σ) (Aliasing.path_ref c)
  = Aliasing.deref σ (Aliasing.path_ref c).

(** A handler that returns [None] and has no effect. *)
Definition silent_handler : Handler unit := fun _ _ s => (s, Ok PyNone).

(** A handler that returns [0], a falsy object that is not [False]. *)
Definition zero_handler : Handler unit := fun _ _ s => (s, Ok (PyInt 0)).

(** The statement of C1: replaying the path of a cursor reachable by
    navigation steps and searches gives the cursor back. *)
Definition path_round_trip (root : PyVal) (c : JsonCursor) : Prop :=
  reachable true root c -> navigate (__init__ root None) (get_path c) = Ok c.

(** The first cursor of a list on which the predicate is truthy; a raise
    on the way propagates. *)
Fixpoint scan (predicate : Predicate) (cs : list JsonCursor) : Res (option JsonCursor) :=
  match cs with
  | [] => Ok None
  | c :: rest =>
      match predicate c with
      | Raise e => Raise e
      | Ok matched => if truthy matched then Ok (Some c) else scan predicate rest
      end
  end.

(** A predicate that returns the object [p c] and never raises. *)
Definition returning (p : JsonCursor -> PyVal) : Predicate := fun c => Ok (p c).

(** ** Further definitions for the traversals *)

(** A predicate that matches the node [1], raises on every other [int] and
    returns [None] elsewhere. *)
Definition one_or_raise : Predicate :=
  fun c =>
    match node c with
    | PyInt 1 => Ok (PyBool true)
    | PyInt _ => Raise (Exception "ValueError" "not one")
    | _ => Ok PyNone
    end.

(** The calls of a traversal in which the entering call returns [False]
    exactly at the cursors where [prune] holds: a pruned cursor has its
    entering call only. *)
Fixpoint calls_pruned_from (prune : JsonCursor -> bool) (n : PyVal) (p : Path)
  : list Call :=
  (mkCursor n p, true) ::
  if prune (mkCursor n p) then []
  else
    match n with
    | PyDict kvs | PyMappingProxy kvs =>
        flat_map (fun kv => calls_pruned_from prune (snd kv) (p ++ [SKey (fst kv)])) kvs
          ++ [(mkCursor n p, false)]
    | PyList xs | PyTuple xs | PyMemoryView xs =>
        flat_enumerate
          (fun i x => calls_pruned_from prune x (p ++ [SIdx (Z.of_nat i)])) 0%nat xs
          ++ [(mkCursor n p, false)]
    | _ => []
    end.

Definition calls_pruned (prune : JsonCursor -> bool) (c : JsonCursor) : list Call :=
  calls_pruned_from prune (node c) (path c).

(** A handler that never raises and whose entering call returns [False]
    exactly where [prune] holds. *)
Definition prunes_at {St} (prune : JsonCursor -> bool) (handler : Handler St) : Prop :=
  forall c entering s,
    exists s' v, handler c entering s = (s', Ok v) /\
                 (entering = true -> is_False v = prune c).

(** The state a handler reaches from [s] when it receives the calls [cs] in
    order. *)
Definition run_calls {St} (handler : Handler St) (cs : list Call) (s : St) : St :=
  fold_left (fun s call => fst (handler (fst call) (snd call) s)) cs s.

(** A handler that counts its calls and returns [False] on entering where
    [prune] holds and [True] elsewhere. *)
Definition counting_handler (prune : JsonCursor -> bool) : Handler nat :=
  fun c _ n => (S n, Ok (PyBool (negb (prune c)))).

(** A handler that raises at the node [2] and returns [None] elsewhere. *)
Definition raise_at_two : Handler unit :=
  fun c _ s =>
    match node c with
    | PyInt 2 => (s, Raise (Exception "ValueError" "two"))
    | _ => (s, Ok PyNone)
    end.

(** What a run of [visit] or of the loop over the children leaves behind:
    the calls [t] it added to the log, a sublist of [expected], and, when it
    raised, the call that raised as the last one. *)
Definition run_summary {St} (handler : Handler St) (expected : list Call)
    (l : list Call) (out : (St * list Call) * Res unit) : Prop :=
  exists t,
    snd (fst out) = l ++ t /\
    sublist t expected /\
    (forall e, snd out = Raise e ->
               exists x entering s0 before,
                 t = before ++ [(x, entering)] /\
                 handler x entering s0 = (fst (fst out), Raise e)).

(** ** Further definitions for the path as a list object *)

(** [JsonCursor.__getitem__] on stored cursors; [self.path + [index]] is a
    new list. *)
Module AliasingIndex.

Definition __getitem__ (self : Aliasing.Cursor) (index : Z) (σ : gmap nat Path)
  : Res Aliasing.Cursor * gmap nat Path :=
  if isinstance_list (Aliasing.node_of self) then
    if (0 <=? index) && (index <? len (Aliasing.node_of self)) then
      match elements (Aliasing.node_of self) !! Z.to_nat index with
      | Some child =>
          let (r, σ1) :=
            Aliasing.new_list
              (Aliasing.deref σ (Aliasing.path_ref self) ++ [SIdx index]) σ in
          let (c, σ2) := Aliasing.__init__ child (Some r) σ1 in
          (Ok c, σ2)
      | None => (Raise (IndexError "list index out of range"), σ)
      end
    else (Raise IndexOutOfRange, σ)
  else (Raise NotASequence, σ).

(** One navigation step on stored cursors. *)
Definition step (c : Aliasing.Cursor) (seg : Segment) (σ : gmap nat Path)
  : Res Aliasing.Cursor * gmap nat Path :=
  match seg with
  | SKey name => Aliasing.__getattr__ c name σ
  | SIdx index => __getitem__ c index σ
  end.

End AliasingIndex.

(** ** The caller of search: [get_project_info] of [testmo_overview.py] *)

(** [d.get(key)] on the entries of a dict: the value, [None] for an absent
    key. *)
Definition dict_get_or_None (key : string) (kvs : list (string * PyVal)) : PyVal :=
  match dict_get key kvs with
  | Some v => v
  | None => PyNone
  end.

(** [v == s] for a [str] [s]: only a [str] with the same characters is
    equal to it. *)
Definition eq_str (v : PyVal) (s : string) : bool :=
  match v with
  | PyStr t => String.eqb t s
  | _ => false
  end.

(** The lambda of [get_project_info]:
    [isinstance(e.node, dict) and (e.node.get("name") == project_name or
    e.node.get("id") == project_name)]. *)
Definition project_matches (project_name : string) (e : JsonCursor) : PyVal :=
  if isinstance_dict (node e) then
    PyBool (eq_str (dict_get_or_None "name" (items (node e))) project_name
            || eq_str (dict_get_or_None "id" (items (node e))) project_name)
  else PyBool false.

(** [get_project_info]. Its two collaborators are arguments:
    [testmo_projects] is what [testmo_collect(testmo_projects_request)]
    fetched, and [result_from_data] is
    [testmo_project_info_reply.result_from_data], of the [schema] package,
    which is not among the sources. *)
Definition get_project_info {R : Type} (result_from_data : PyVal -> Res R)
    (testmo_projects : PyVal) (project_name : string) : Res (option R) :=
  match search (__init__ testmo_projects None) (returning (project_matches project_name)) with
  | Raise e => Raise e
  | Ok None => Ok None
  | Ok (Some project_info) =>
      match result_from_data (node project_info) with
      | Ok r => Ok (Some r)
      | Raise e => Raise e
      end
  end.

(** A project record as the REST reply lists it: a dict whose values are
    terminals and whose ["id"], if any, is not a [str]. *)
Definition numbered_record (p : PyVal) : bool :=
  match p with
  | PyDict kvs =>
      forallb (fun kv => negb (isinstance_Mapping (snd kv))
                         && negb (isinstance_Sequence (snd kv)
                                  && negb (isinstance_str_bytes_bytearray (snd kv)))) kvs
      && negb (match dict_get_or_None "id" kvs with PyStr _ => true | _ => false end)
  | _ => false
  end.

(** ** [lib/dict_util.py] *)

(** [d[k] = v] on the entries of a dict: the value of a key that is there
    is replaced in place, a new key goes last. *)
Fixpoint dict_set (k : string) (v : PyVal) (kvs : list (string * PyVal))
  : list (string * PyVal) :=
  match kvs with
  | [] => [(k, v)]
  | (k', v') :: rest =>
      if String.eqb k' k then (k, v) :: rest else (k', v') :: dict_set k v rest
  end.

(** [dict_entries]: [{k: v for k, v in the_dic.items() if k in args}]. *)
Definition dict_entries (the_dic : list (string * PyVal)) (args : list string)
  : list (string * PyVal) :=
  fold_left
    (fun result kv =>
       if existsb (String.eqb (fst kv)) args
       then dict_set (fst kv) (snd kv) result
       else result)
    the_dic [].

(** The values [dict_to_namespace] returns: a [SimpleNamespace], given by
    its [vars], a list, or a value left as it is. *)
Unset Elimination Schemes.
Inductive NsVal : Type :=
| NsNamespace (attrs : list (string * NsVal))
| NsList (elems : list NsVal)
| NsValue (v : PyVal).
Set Elimination Schemes.

(** [dict_to_namespace] *)
Fixpoint dict_to_namespace (d : PyVal) : NsVal :=
  match d with
  | PyDict kvs =>
      NsNamespace (map (fun kv => (fst kv, dict_to_namespace (snd kv))) kvs)
  | PyList xs => NsList (map dict_to_namespace xs)
  | _ => NsValue d
  end.

(** [vars(ns)[name]] on the attributes of a namespace. *)
Fixpoint ns_get (name : string) (attrs : list (string * NsVal)) : option NsVal :=
  match attrs with
  | [] => None
  | (k, v) :: rest => if String.eqb k name then Some v else ns_get name rest
  end.

(** One access on a converted value: an attribute of a namespace, or an
    element of a list at an index within [0, len). *)
Definition ns_step (v : NsVal) (seg : Segment) : option NsVal :=
  match v, seg with
  | NsNamespace attrs, SKey name => ns_get name attrs
  | NsList xs, SIdx index =>
      if (0 <=? index) && (index <? Z.of_nat (length xs))
      then xs !! Z.to_nat index
      else None
  | _, _ => None
  end.

(** The accesses of a path, one after the other. *)
Fixpoint ns_navigate (v : NsVal) (p : Path) : option NsVal :=
  match p with
  | [] => Some v
  | seg :: rest =>
      match ns_step v seg with
      | Some v' => ns_navigate v' rest
      | None => None
      end
  end.

(** ** [RestRequest.extend_endpoint] of [lib/rest_request.py] *)

(** [s.lstrip("/")] *)
Fixpoint lstrip_slash (s : string) : string :=
  match s with
  | String "/"%char rest => lstrip_slash rest
  | _ => s
  end.

(** [s.rstrip("/")] *)
Fixpoint rstrip_slash (s : string) : string :=
  match s with
  | EmptyString => EmptyString
  | String a rest =>
      match rstrip_slash rest with
      | EmptyString => if Ascii.eqb a "/"%char then EmptyString else String a EmptyString
      | t => String a t
      end
  end.

(** ["/".join(parts)] *)
Fixpoint join_slash (parts : list string) : string :=
  match parts with
  | [] => EmptyString
  | [a] => a
  | a :: rest => a +:+ "/" +:+ join_slash rest
  end.

(** [extend_endpoint] on a [str] endpoint: the new value of
    [self.endpoint], for an extension that is a [str] ([inl]) or a list of
    [str] ([inr]). *)
Definition extend_endpoint (endpoint : string) (extension : string + list string)
  : string :=
  let extension :=
    match extension with
    | inl e => e
    | inr parts => join_slash parts
    end in
  rstrip_slash endpoint +:+ "/" +:+ lstrip_slash extension.

(** Whether a string starts, or ends, with ["/"], and the string of [n]
    slashes. *)
Definition starts_with_slash (s : string) : bool :=
  match s with
  | String a _ => Ascii.eqb a "/"%char
  | EmptyString => false
  end.

Fixpoint ends_with_slash (s : string) : bool :=
  match s with
  | EmptyString => false
  | String a EmptyString => Ascii.eqb a "/"%char
  | String _ rest => ends_with_slash rest
  end.

Fixpoint slashes (n : nat) : string :=
  match n with
  | O => EmptyString
  | S m => String "/"%char (slashes m)
  end.

(** The cursors of the entering calls of a list of calls, in order. *)
Definition entered (cs : list Call) : list JsonCursor :=
  map fst (List.filter (fun call => snd call) cs).

(** * Properties *)

(** ** Classification and dispatch *)

Lemma dispatch_Mapping (n : PyVal) :
  isinstance_Mapping n = true <-> n = PyDict (items n) \/ n = PyMappingProxy (items n).
Proof.
  destruct n; simpl; split; intros H; try discriminate; auto;
    destruct H as [H | H]; discriminate H.
Qed.

Lemma dispatch_Sequence (n : PyVal) :
  isinstance_Sequence n && negb (isinstance_str_bytes_bytearray n) = true
  <-> n = PyList (elements n) \/ n = PyTuple (elements n)
      \/ n = PyMemoryView (elements n).
Proof.
  destruct n; simpl; split; intros H; try discriminate; auto;
    destruct H as [H | [H | H]]; discriminate H.
Qed.

(** C9, the part that holds. [on_dict], [on_list] and [on_data] are total
    boolean functions of the cursor; exactly one of them is true at every
    cursor; [on_data] is [not on_dict and not on_list]; a [str], [bytes] or
    [bytearray] node is never on a list: [on_list] is false on ["ab"] and
    true on [["a", "b"]]. *)
Lemma classification_partition :
  forall c : JsonCursor,
    ((on_dict c = true /\ on_list c = false /\ on_data c = false) \/
     (on_dict c = false /\ on_list c = true /\ on_data c = false) \/
     (on_dict c = false /\ on_list c = false /\ on_data c = true)) /\
    on_data c = negb (on_dict c) && negb (on_list c) /\
    (forall s p, on_list (mkCursor (PyStr s) p) = false) /\
    (forall bs p, on_list (mkCursor (PyBytes bs) p) = false) /\
    (forall bs p, on_list (mkCursor (PyByteArray bs) p) = false) /\
    (forall p, on_list (mkCursor (PyStr "ab") p) = false /\
               on_list (mkCursor (PyList [PyStr "a"; PyStr "b"]) p) = true).
Proof.
  intros [n p]. unfold on_data, on_dict, on_list. simpl.
  repeat split; destruct n; simpl; auto.
Qed.

(** C9, the failing input. [memoryview(b"ab")] is a byte container and none
    of [str], [bytes], [bytearray], the only classes the test of [on_list]
    excludes: the cursor on it is on a list and not on data, where the
    cursor on [b"ab"] itself is on data; [search] descends into the view and
    returns the cursor of its first byte, with path [[0]], and [visit] calls
    the handler on both bytes between the entering and the exit call of the
    view. *)
Theorem on_list_memoryview :
  isinstance_str_bytes_bytearray (PyMemoryView [PyInt 97; PyInt 98]) = false /\
  on_list (mkCursor (PyMemoryView [PyInt 97; PyInt 98]) []) = true /\
  on_dict (mkCursor (PyMemoryView [PyInt 97; PyInt 98]) []) = false /\
  on_data (mkCursor (PyMemoryView [PyInt 97; PyInt 98]) []) = false /\
  on_list (mkCursor (PyBytes [97; 98]) []) = false /\
  on_data (mkCursor (PyBytes [97; 98]) []) = true /\
  search (__init__ (PyMemoryView [PyInt 97; PyInt 98]) None)
    (fun c => Ok (PyBool (on_data c)))
  = Ok (Some (mkCursor (PyInt 97) [SIdx 0])) /\
  visit (__init__ (PyMemoryView [PyInt 97; PyInt 98]) None)
    (logged (fun _ _ (s : unit) => (s, Ok PyNone))) (tt, [])
  = ((tt, [(mkCursor (PyMemoryView [PyInt 97; PyInt 98]) [], true);
           (mkCursor (PyInt 97) [SIdx 0], true);
           (mkCursor (PyInt 98) [SIdx 1], true);
           (mkCursor (PyMemoryView [PyInt 97; PyInt 98]) [], false)]), Ok tt).
Proof. repeat split. Qed.

(** ** Addressing *)

(** C5, counterexample. A tuple is classified as a sequence, and
    [__getitem__] refuses it. *)
Lemma childByIndex_refuses_tuple :
  on_list (mkCursor (PyTuple [PyInt 1]) []) = true /\
  __getitem__ (mkCursor (PyTuple [PyInt 1]) []) 0 = Raise NotASequence /\
  ~ childByIndex_by_classification (mkCursor (PyTuple [PyInt 1]) []) 0.
Proof.
  split; [reflexivity | split; [reflexivity |]].
  intros [H _]. destruct H as [H _].
  specialize (H eq_refl). discriminate H.
Qed.

(** C5, as the code has it. [__getitem__] raises the [TypeError] exactly
    when the node is not a [list]; on a list it raises the [IndexError]
    exactly when the index is outside [0, len); otherwise it returns the
    cursor [(node[i], path + [i])]. *)
Theorem getitem_behaviour :
  forall (c : JsonCursor) (i : Z),
    (__getitem__ c i = Raise NotASequence <-> isinstance_list (node c) = false) /\
    (isinstance_list (node c) = true ->
     (__getitem__ c i = Raise IndexOutOfRange <-> ~ (0 <= i < len (node c)))) /\
    (isinstance_list (node c) = true -> 0 <= i < len (node c) ->
     exists child, elements (node c) !! Z.to_nat i = Some child /\
                   __getitem__ c i = Ok (mkCursor child (path c ++ [SIdx i]))).
Proof.
  intros [n p] i. unfold __getitem__. simpl.
  destruct (isinstance_list n) eqn:Hl.
  - assert (Hin : 0 <= i < len n ->
                  exists child, elements n !! Z.to_nat i = Some child).
    { intros Hr. apply lookup_lt_is_Some_2. unfold len in Hr. lia. }
    destruct ((0 <=? i) && (i <? len n)) eqn:Hb.
    + apply andb_true_iff in Hb as [H0 H1].
      apply Z.leb_le in H0. apply Z.ltb_lt in H1.
      destruct (Hin (conj H0 H1)) as [child Hc]. rewrite Hc.
      repeat split; try discriminate; try (intros; exfalso; lia).
      intros _ _. exists child. split; reflexivity.
    + assert (Hout : ~ (0 <= i < len n)).
      { intros [H0 H1]. apply Z.leb_le in H0. apply Z.ltb_lt in H1.
        rewrite H0, H1 in Hb. discriminate Hb. }
      repeat split; try discriminate; auto.
      intros _ Hr. contradiction.
  - repeat split; try discriminate; auto.
Qed.

(** C6, counterexample. A [mappingproxy] is a [Mapping], and [__getattr__]
    refuses it although the key is there. *)
Lemma childByKey_refuses_mappingproxy :
  on_dict (mkCursor (PyMappingProxy [("a", PyInt 1)]) []) = true /\
  dict_get "a" (items (PyMappingProxy [("a", PyInt 1)])) = Some (PyInt 1) /\
  __getattr__ (mkCursor (PyMappingProxy [("a", PyInt 1)]) []) "a" = Raise TypeMismatch /\
  ~ childByKey_by_classification (mkCursor (PyMappingProxy [("a", PyInt 1)]) []) "a".
Proof.
  split; [reflexivity | split; [reflexivity | split; [reflexivity |]]].
  intros [H _]. destruct H as [H _].
  specialize (H eq_refl). discriminate H.
Qed.

(** C6, as the code has it. [__getattr__] raises the "not a JSON object"
    [AttributeError] exactly when the node is not a [dict]; on a dict it
    raises the "key not found" [AttributeError] exactly when the key is
    absent; otherwise it returns the cursor [(node[name], path + [name])]. *)
Theorem getattr_behaviour :
  forall (c : JsonCursor) (name : string),
    (__getattr__ c name = Raise TypeMismatch <-> isinstance_dict (node c) = false) /\
    (isinstance_dict (node c) = true ->
     (__getattr__ c name = Raise (KeyNotFound name)
      <-> dict_get name (items (node c)) = None)) /\
    (isinstance_dict (node c) = true ->
     forall child, dict_get name (items (node c)) = Some child ->
                   __getattr__ c name = Ok (mkCursor child (path c ++ [SKey name]))).
Proof.
  intros [n p] name. unfold __getattr__. simpl.
  destruct (isinstance_dict n) eqn:Hd.
  - destruct (dict_get name (items n)) as [child |] eqn:Hg.
    + repeat split; try discriminate.
      intros _ child' Hc. injection Hc as <-. reflexivity.
    + repeat split; try discriminate; auto.
  - repeat split; try discriminate; auto.
Qed.

(** What [value] does at every cursor: the [TypeError] on a [dict] or a
    [list], the node itself otherwise. *)
Lemma value_behaviour (c : JsonCursor) :
  (value c = Raise NotATerminal <->
   isinstance_dict (node c) = true \/ isinstance_list (node c) = true) /\
  (isinstance_dict (node c) = false -> isinstance_list (node c) = false ->
   value c = Ok (node c)).
Proof.
  unfold value.
  destruct (isinstance_dict (node c)), (isinstance_list (node c)); simpl;
    repeat split; auto; try discriminate; intros [H | H]; discriminate H.
Qed.

(** On a terminal node [value] returns the node unchanged. *)
Lemma value_on_data (c : JsonCursor) : on_data c = true -> value c = Ok (node c).
Proof.
  destruct c as [n p]. unfold on_data, on_dict, on_list, value. simpl.
  destruct n; simpl; intros H; try discriminate H; reflexivity.
Qed.

(** C7, the failing input. A tuple node is a [Sequence] ([on_list] holds,
    [on_data] does not), and [value] returns it instead of raising; the same
    on a [mappingproxy]. *)
Theorem value_returns_tuple :
  on_list (mkCursor (PyTuple [PyInt 1; PyInt 2]) []) = true /\
  on_data (mkCursor (PyTuple [PyInt 1; PyInt 2]) []) = false /\
  value (mkCursor (PyTuple [PyInt 1; PyInt 2]) []) = Ok (PyTuple [PyInt 1; PyInt 2]) /\
  on_dict (mkCursor (PyMappingProxy [("a", PyInt 1)]) []) = true /\
  value (mkCursor (PyMappingProxy [("a", PyInt 1)]) [])
  = Ok (PyMappingProxy [("a", PyInt 1)]).
Proof. repeat split. Qed.

(** ** Search *)

Lemma scan_app (predicate : Predicate) (l1 l2 : list JsonCursor) :
  scan predicate (l1 ++ l2)
  = match scan predicate l1 with
    | Ok None => scan predicate l2
    | r => r
    end.
Proof.
  induction l1 as [| c l1 IH]; simpl; [reflexivity |].
  destruct (predicate c) as [v | e]; [| reflexivity].
  destruct (truthy v); [reflexivity | exact IH].
Qed.

Lemma search_items_scan (predicate : Predicate) (p : Path) (kvs : list (string * PyVal)) :
  Forall (fun kv => forall q, _recursive_search predicate (snd kv) q
                              = scan predicate (subtree (snd kv) q)) kvs ->
  search_items (fun key val => _recursive_search predicate val (p ++ [SKey key])) kvs
  = scan predicate (flat_map (fun kv => subtree (snd kv) (p ++ [SKey (fst kv)])) kvs).
Proof.
  induction 1 as [| [k v] rest Hkv _ IH]; simpl in *; [reflexivity |].
  rewrite scan_app, <- (Hkv (p ++ [SKey k])).
  destruct (_recursive_search predicate v (p ++ [SKey k])) as [[r |] | e];
    [reflexivity | exact IH | reflexivity].
Qed.

Lemma search_enumerate_scan (predicate : Predicate) (p : Path) (xs : list PyVal) :
  Forall (fun x => forall q, _recursive_search predicate x q
                             = scan predicate (subtree x q)) xs ->
  forall i,
    search_enumerate
      (fun index item => _recursive_search predicate item (p ++ [SIdx (Z.of_nat index)])) i xs
    = scan predicate
        (flat_enumerate (fun i x => subtree x (p ++ [SIdx (Z.of_nat i)])) i xs).
Proof.
  induction 1 as [| x rest Hx _ IH]; intros i; simpl; [reflexivity |].
  rewrite scan_app, <- (Hx (p ++ [SIdx (Z.of_nat i)])).
  destruct (_recursive_search predicate x (p ++ [SIdx (Z.of_nat i)])) as [[r |] | e];
    [reflexivity | exact (IH (S i)) | reflexivity].
Qed.

(** The recursive search is the scan of the pre-order list of the subtree,
    for every predicate, raising or not. *)
Lemma search_scan (predicate : Predicate) (n : PyVal) :
  forall p, _recursive_search predicate n p = scan predicate (subtree n p).
Proof.
  induction n as [| | | | | | | kvs IH | kvs IH | xs IH | xs IH | xs IH] using PyVal_nested_ind;
    intros p; simpl;
    destruct (predicate (mkCursor _ p)) as [v | e]; try reflexivity;
    destruct (truthy v); try reflexivity.
  - exact (search_items_scan predicate p kvs IH).
  - exact (search_items_scan predicate p kvs IH).
  - exact (search_enumerate_scan predicate p xs IH 0%nat).
  - exact (search_enumerate_scan predicate p xs IH 0%nat).
  - exact (search_enumerate_scan predicate p xs IH 0%nat).
Qed.

Lemma scan_returning_find (p : JsonCursor -> PyVal) (cs : list JsonCursor) :
  scan (returning p) cs = Ok (find (fun x => truthy (p x)) cs).
Proof.
  induction cs as [| c cs IH]; simpl; [reflexivity |].
  unfold returning at 1. destruct (truthy (p c)); [reflexivity | exact IH].
Qed.



Lemma search_find (p : JsonCursor -> PyVal) (c : JsonCursor) :
  search c (returning p) = Ok (find (fun x => truthy (p x)) (preorder c)).
Proof. unfold search, preorder. rewrite search_scan. apply scan_returning_find. Qed.

Lemma find_ext_bool {A} (f g : A -> bool) (l : list A) :
  (forall x, f x = g x) -> find f l = find g l.
Proof.
  intros H. induction l as [| a l IH]; simpl; [reflexivity |].
  rewrite <- H, IH. reflexivity.
Qed.


(** C10. The match test of [search] is the truth value of what the predicate
    returns: the result is the first cursor in pre-order at which that
    object is truthy, a predicate and its [bool(...)] give the same search,
    and a predicate returning any truthy object, a non-empty string or a
    non-zero number as well as [True], selects the cursor it is applied to. *)
Theorem search_matches_on_truthiness :
  forall (p : JsonCursor -> PyVal) (c : JsonCursor),
    search c (returning p) = Ok (find (fun x => truthy (p x)) (preorder c)) /\
    search c (returning p) = search c (returning (fun x => PyBool (truthy (p x)))) /\
    (forall v, truthy v = true -> search c (returning (fun _ => v)) = Ok (Some c)) /\
    search c (returning (fun _ => PyStr "match")) = Ok (Some c) /\
    search c (returning (fun _ => PyInt 7)) = Ok (Some c) /\
    search c (returning (fun _ => PyBool true)) = Ok (Some c) /\
    (on_data c = true ->
     search c (returning (fun _ => PyInt 0)) = Ok None /\
     search c (returning (fun _ => PyStr EmptyString)) = Ok None /\
     search c (returning (fun _ => PyNone)) = Ok None).
Proof.
  intros p c. rewrite !search_find.
  split; [reflexivity |].
  split; [f_equal; apply find_ext_bool; intros x; destruct (truthy (p x)); reflexivity |].
  split.
  { intros v Hv. rewrite search_find. unfold preorder. destruct c as [n q].
    destruct n; simpl; rewrite Hv; reflexivity. }
  unfold preorder. destruct c as [n q]. simpl.
  repeat split; try (destruct n; reflexivity);
    destruct n; try discriminate H; reflexivity.
Qed.

(** ** Replaying a path *)

Lemma navigate_app (c : JsonCursor) (p1 p2 : Path) :
  navigate c (p1 ++ p2)
  = match navigate c p1 with
    | Ok c' => navigate c' p2
    | Raise e => Raise e
    end.
Proof.
  revert c. induction p1 as [| seg p1 IH]; intros c; simpl; [reflexivity |].
  destruct (step c seg) as [c' | e]; [apply IH | reflexivity].
Qed.

Lemma dict_get_Some_In (name : string) (kvs : list (string * PyVal)) (v : PyVal) :
  dict_get name kvs = Some v -> In (name, v) kvs.
Proof.
  induction kvs as [| [k w] rest IH]; simpl; [discriminate |].
  destruct (String.eqb_spec k name) as [-> | Hne].
  - intros H. injection H as <-. left. reflexivity.
  - intros H. right. exact (IH H).
Qed.

Lemma dict_get_In_NoDup (name : string) (kvs : list (string * PyVal)) (v : PyVal) :
  NoDup (map fst kvs) -> In (name, v) kvs -> dict_get name kvs = Some v.
Proof.
  induction kvs as [| [k w] rest IH]; simpl; [intros _ [] |].
  intros Hnd Hin. apply NoDup_cons in Hnd as [Hk Hnd].
  destruct Hin as [Heq | Hin].
  - injection Heq as -> ->. rewrite String.eqb_refl. reflexivity.
  - destruct (String.eqb_spec k name) as [-> | Hne]; [| exact (IH Hnd Hin)].
    exfalso. apply Hk. apply list_elem_of_In.
    change name with (fst (name, v)). apply in_map. exact Hin.
Qed.

Lemma flat_enumerate_In {A B} (body : nat -> A -> list B) (xs : list A) (y : B) :
  forall i,
    In y (flat_enumerate body i xs)
    <-> exists j x, xs !! j = Some x /\ In y (body (i + j)%nat x).
Proof.
  induction xs as [| x xs IH]; intros i; simpl.
  - split; [intros [] | intros (j & x & Hj & _); discriminate Hj].
  - rewrite in_app_iff, IH. split.
    + intros [Hy | (j & x' & Hj & Hy)].
      * exists 0%nat, x. rewrite Nat.add_0_r. split; [reflexivity | exact Hy].
      * exists (S j), x'. rewrite Nat.add_succ_r. split; [exact Hj | exact Hy].
    + intros (j & x' & Hj & Hy). destruct j as [| j].
      * injection Hj as <-. rewrite Nat.add_0_r in Hy. left. exact Hy.
      * right. exists j, x'. rewrite Nat.add_succ_r in Hy. split; [exact Hj | exact Hy].
Qed.

Lemma unique_keys_entry (kvs : list (string * PyVal)) (k : string) (v : PyVal) :
  forallb (fun kv => unique_keys (snd kv)) kvs = true ->
  In (k, v) kvs -> unique_keys v = true.
Proof. intros H Hin. rewrite forallb_forall in H. exact (H (k, v) Hin). Qed.

Lemma getattr_Ok_inv (c c' : JsonCursor) (name : string) :
  __getattr__ c name = Ok c' ->
  exists kvs, node c = PyDict kvs /\ In (name, node c') kvs /\
              path c' = path c ++ [SKey name].
Proof.
  destruct c as [n p]. unfold __getattr__. simpl.
  destruct n; simpl; try discriminate.
  destruct (dict_get name entries) as [child |] eqn:Hg; [| discriminate].
  intros H. injection H as <-. simpl.
  exists entries. split; [reflexivity |]. split; [| reflexivity].
  exact (dict_get_Some_In _ _ _ Hg).
Qed.

Lemma getitem_Ok_inv (c c' : JsonCursor) (index : Z) :
  __getitem__ c index = Ok c' ->
  exists xs, node c = PyList xs /\ In (node c') xs /\
             path c' = path c ++ [SIdx index].
Proof.
  destruct c as [n p]. unfold __getitem__. simpl.
  destruct n; simpl; try discriminate.
  destruct ((0 <=? index) && (index <? len (PyList elems))); [| discriminate].
  destruct (elems !! Z.to_nat index) as [child |] eqn:Hl; [| discriminate].
  intros H. injection H as <-. simpl.
  exists elems. split; [reflexivity |]. split; [| reflexivity].
  apply list_elem_of_In. exact (list_elem_of_lookup_2 _ _ _ Hl).
Qed.

(** In a tree of dicts and lists, every cursor of a subtree is where the
    navigation along its path suffix arrives. *)
Lemma subtree_navigate (n : PyVal) :
  forall (p : Path) (x : JsonCursor),
    unique_keys n = true -> dict_list_only n = true -> In x (subtree n p) ->
    exists suffix,
      path x = p ++ suffix /\
      navigate (mkCursor n p) suffix = Ok x /\
      unique_keys (node x) = true /\ dict_list_only (node x) = true.
Proof.
  induction n as [| | | | | | | kvs IH | kvs IH | xs IH | xs IH | xs IH] using PyVal_nested_ind;
    intros p x Hu Hd Hin; simpl in Hin;
    try (destruct Hin as [<- | []]; exists []; rewrite app_nil_r; auto).
  - destruct Hin as [<- | Hin]; [exists []; rewrite app_nil_r; auto |].
    apply in_flat_map in Hin as ([k v] & Hkv & Hx). simpl in Hx.
    simpl in Hu, Hd. apply andb_true_iff in Hu as [Hnd Hu].
    apply bool_decide_eq_true in Hnd.
    rewrite Forall_forall in IH.
    assert (Hkv' : (k, v) ∈ kvs) by (apply list_elem_of_In; exact Hkv).
    rewrite forallb_forall in Hu, Hd.
    destruct (IH (k, v) Hkv' (p ++ [SKey k]) x (Hu _ Hkv) (Hd _ Hkv) Hx)
      as (suffix & Hp & Hnav & Hux & Hdx).
    exists (SKey k :: suffix). rewrite Hp, <- app_assoc. simpl.
    split; [reflexivity |]. split; [| auto].
    unfold __getattr__. simpl.
    rewrite (dict_get_In_NoDup k kvs v Hnd Hkv). exact Hnav.
  - discriminate Hd.
  - destruct Hin as [<- | Hin]; [exists []; rewrite app_nil_r; auto |].
    apply flat_enumerate_In in Hin as (j & v & Hj & Hx). simpl in Hx.
    simpl in Hu, Hd. rewrite Forall_forall in IH.
    assert (Hv' : v ∈ xs) by exact (list_elem_of_lookup_2 _ _ _ Hj).
    assert (Hv : In v xs) by (apply list_elem_of_In; exact Hv').
    rewrite forallb_forall in Hu, Hd.
    destruct (IH v Hv' (p ++ [SIdx (Z.of_nat j)]) x (Hu _ Hv) (Hd _ Hv) Hx)
      as (suffix & Hp & Hnav & Hux & Hdx).
    exists (SIdx (Z.of_nat j) :: suffix). rewrite Hp, <- app_assoc. simpl.
    split; [reflexivity |]. split; [| auto].
    unfold __getitem__, len. simpl.
    pose proof (lookup_lt_Some _ _ _ Hj) as Hlt.
    replace ((0 <=? Z.of_nat j) && (Z.of_nat j <? Z.of_nat (length xs))) with true.
    + rewrite Nat2Z.id, Hj. exact Hnav.
    + symmetry. apply andb_true_iff. split; [apply Z.leb_le | apply Z.ltb_lt]; lia.
  - discriminate Hd.
  - discriminate Hd.
Qed.

Lemma scan_Some_In (predicate : Predicate) (cs : list JsonCursor) (r : JsonCursor) :
  scan predicate cs = Ok (Some r) -> In r cs.
Proof.
  induction cs as [| c cs IH]; simpl; [discriminate |].
  destruct (predicate c) as [v | e]; [| discriminate].
  destruct (truthy v).
  - intros H. injection H as <-. left. reflexivity.
  - intros H. right. exact (IH H).
Qed.

(** A cursor returned by [search] is a cursor of the subtree searched. *)
Lemma search_Some_In (predicate : Predicate) (c r : JsonCursor) :
  search c predicate = Ok (Some r) -> In r (preorder c).
Proof. unfold search, preorder. rewrite search_scan. apply scan_Some_In. Qed.

(** C1, counterexample. The search of a tuple returns the cursor of its
    element with path [[0]], and [__getitem__] refuses the tuple when the
    path is replayed. *)
Lemma round_trip_fails_in_tuple :
  unique_keys (PyTuple [PyInt 1]) = true /\
  search (__init__ (PyTuple [PyInt 1]) None) (fun c => Ok (PyBool (on_data c)))
  = Ok (Some (mkCursor (PyInt 1) [SIdx 0])) /\
  navigate (__init__ (PyTuple [PyInt 1]) None) (get_path (mkCursor (PyInt 1) [SIdx 0]))
  = Raise NotASequence /\
  ~ path_round_trip (PyTuple [PyInt 1]) (mkCursor (PyInt 1) [SIdx 0]).
Proof.
  split; [reflexivity | split; [reflexivity | split; [reflexivity |]]].
  intros H. unfold path_round_trip in H.
  assert (Hr : reachable true (PyTuple [PyInt 1]) (mkCursor (PyInt 1) [SIdx 0])).
  { eapply (reach_search true _ _ (fun c => Ok (PyBool (on_data c))));
      [reflexivity | apply reach_root | reflexivity]. }
  specialize (H Hr). discriminate H.
Qed.

(** C1, as the code has it. Replaying the path of a cursor from the root,
    keys through [__getattr__] and indices through [__getitem__], gives the
    cursor back (same node, same path) for every cursor reached by
    navigation steps, and for every cursor reached through searches as well
    when the containers of the tree are dicts and lists. *)
Theorem path_round_trip_dict_list :
  forall (searching : bool) (root : PyVal) (c : JsonCursor),
    unique_keys root = true ->
    (searching = true -> dict_list_only root = true) ->
    reachable searching root c ->
    navigate (__init__ root None) (get_path c) = Ok c.
Proof.
  intros searching root c Hu Hd Hr. unfold get_path.
  assert (Inv : navigate (__init__ root None) (path c) = Ok c /\
                unique_keys (node c) = true /\
                (searching = true -> dict_list_only (node c) = true)).
  { induction Hr as [| c name c' _ IH Hstep | c index c' _ IH Hstep
                     | c predicate c' Hs _ IH Hstep].
    - simpl. auto.
    - destruct IH as (Hnav & Huc & Hdc).
      destruct (getattr_Ok_inv _ _ _ Hstep) as (kvs & Hn & Hin & Hp).
      rewrite Hn in Huc, Hdc. simpl in Huc, Hdc.
      apply andb_true_iff in Huc as [_ Huc].
      split; [| split].
      + rewrite Hp, navigate_app, Hnav. simpl. rewrite Hstep. reflexivity.
      + exact (unique_keys_entry _ _ _ Huc Hin).
      + intros Hs. specialize (Hdc Hs). rewrite forallb_forall in Hdc.
        exact (Hdc _ Hin).
    - destruct IH as (Hnav & Huc & Hdc).
      destruct (getitem_Ok_inv _ _ _ Hstep) as (xs & Hn & Hin & Hp).
      rewrite Hn in Huc, Hdc. simpl in Huc, Hdc.
      split; [| split].
      + rewrite Hp, navigate_app, Hnav. simpl. rewrite Hstep. reflexivity.
      + rewrite forallb_forall in Huc. exact (Huc _ Hin).
      + intros Hs'. specialize (Hdc Hs'). rewrite forallb_forall in Hdc.
        exact (Hdc _ Hin).
    - destruct IH as (Hnav & Huc & Hdc).
      apply search_Some_In in Hstep. unfold preorder in Hstep.
      destruct (subtree_navigate _ _ _ Huc (Hdc Hs) Hstep)
        as (suffix & Hp & Hsub & Hux & Hdx).
      split; [| split; [exact Hux | intros _; exact Hdx]].
      rewrite Hp, navigate_app, Hnav. destruct c as [n q]. exact Hsub. }
  exact (proj1 Inv).
Qed.

(** The theorem at the end-to-end tree of the interface: the cursor found by
    searching for ["y"] replays to itself. *)
Lemma path_round_trip_dict_list_witness :
  navigate
    (__init__ (PyDict [("user", PyDict [("name", PyStr "Alice");
                                        ("tags", PyList [PyStr "x"; PyStr "y"])])]) None)
    (get_path (mkCursor (PyStr "y") [SKey "user"; SKey "tags"; SIdx 1]))
  = Ok (mkCursor (PyStr "y") [SKey "user"; SKey "tags"; SIdx 1]).
Proof.
  apply (path_round_trip_dict_list true).
  - vm_compute. reflexivity.
  - intros _. vm_compute. reflexivity.
  - eapply (reach_search true _ _
              (fun c => Ok (PyBool (match value c with
                                    | Ok (PyStr s) => String.eqb s "y"
                                    | _ => false
                                    end)))).
    + reflexivity.
    + apply reach_root.
    + vm_compute. reflexivity.
Defined.

(** ** The children of a cursor *)

Lemma flat_map_map {A B C} (g : A -> B) (f : B -> list C) (l : list A) :
  flat_map f (map g l) = flat_map (fun a => f (g a)) l.
Proof.
  induction l as [| a l IH]; simpl; [reflexivity | rewrite IH; reflexivity].
Qed.

Lemma flat_enumerate_flat_map {A B} (body : nat -> A -> list B) (xs : list A) :
  forall i,
    flat_enumerate body i xs
    = flat_map (fun ix => body (fst ix) (snd ix)) (enumerate_from i xs).
Proof.
  induction xs as [| x xs IH]; intros i; simpl; [reflexivity |].
  rewrite IH. reflexivity.
Qed.

Lemma enumerate_from_fst {A} (xs : list A) :
  forall i, map fst (enumerate_from i xs) = seq i (length xs).
Proof.
  induction xs as [| x xs IH]; intros i; simpl; [reflexivity |].
  rewrite IH. reflexivity.
Qed.

Lemma enumerate_from_snd {A} (xs : list A) :
  forall i, map snd (enumerate_from i xs) = xs.
Proof.
  induction xs as [| x xs IH]; intros i; simpl; [reflexivity |].
  rewrite IH. reflexivity.
Qed.

(** The pre-order list of a cursor: the cursor, then the pre-order lists of
    its children in turn. *)
Lemma preorder_children (c : JsonCursor) :
  preorder c = c :: flat_map preorder (children c).
Proof.
  destruct c as [n p]. unfold preorder, children, on_dict, on_list.
  destruct n; simpl; try reflexivity; f_equal.
  - rewrite flat_map_map. reflexivity.
  - rewrite flat_map_map. reflexivity.
  - rewrite flat_enumerate_flat_map, flat_map_map. reflexivity.
  - rewrite flat_enumerate_flat_map, flat_map_map. reflexivity.
  - rewrite flat_enumerate_flat_map, flat_map_map. reflexivity.
Qed.

(** The calls of an unpruned traversal: the entering call, and for a
    container the calls of its children in turn and then the exit call. *)
Lemma calls_children (c : JsonCursor) :
  calls c
  = (c, true) ::
    (if on_data c then [] else flat_map calls (children c) ++ [(c, false)]).
Proof.
  destruct c as [n p]. unfold calls, children, on_data, on_dict, on_list.
  destruct n; simpl; try reflexivity; do 2 f_equal.
  - rewrite flat_map_map. reflexivity.
  - rewrite flat_map_map. reflexivity.
  - rewrite flat_enumerate_flat_map, flat_map_map. reflexivity.
  - rewrite flat_enumerate_flat_map, flat_map_map. reflexivity.
  - rewrite flat_enumerate_flat_map, flat_map_map. reflexivity.
Qed.

Lemma children_on_data (c : JsonCursor) : on_data c = true -> children c = [].
Proof.
  unfold children, on_data. destruct (on_dict c), (on_list c); simpl;
    intros H; try discriminate H; reflexivity.
Qed.

Lemma children_node (c ch : JsonCursor) :
  In ch (children c) ->
  (exists kvs, items (node c) = kvs /\ isinstance_Mapping (node c) = true /\
               In (node ch) (map snd kvs)) \/
  (isinstance_Mapping (node c) = false /\ In (node ch) (elements (node c))).
Proof.
  destruct c as [n p]. unfold children, on_dict, on_list.
  destruct n; simpl; try (intros []).
  - intros Hin. apply in_map_iff in Hin as (kv & <- & Hkv).
    left. eexists. split; [reflexivity |]. split; [reflexivity |].
    simpl. apply (in_map snd). exact Hkv.
  - intros Hin. apply in_map_iff in Hin as (kv & <- & Hkv).
    left. eexists. split; [reflexivity |]. split; [reflexivity |].
    simpl. apply (in_map snd). exact Hkv.
  - intros Hin. apply in_map_iff in Hin as (ix & <- & Hix).
    right. split; [reflexivity |]. simpl.
    rewrite <- (enumerate_from_snd elems 0%nat). apply (in_map snd). exact Hix.
  - intros Hin. apply in_map_iff in Hin as (ix & <- & Hix).
    right. split; [reflexivity |]. simpl.
    rewrite <- (enumerate_from_snd elems 0%nat). apply (in_map snd). exact Hix.
  - intros Hin. apply in_map_iff in Hin as (ix & <- & Hix).
    right. split; [reflexivity |]. simpl.
    rewrite <- (enumerate_from_snd elems 0%nat). apply (in_map snd). exact Hix.
Qed.

(** Induction over cursors: a property that holds at a cursor whenever it
    holds at its children holds at every cursor. *)
Lemma cursor_ind (P : JsonCursor -> Prop) :
  (forall c, (forall ch, In ch (children c) -> P ch) -> P c) ->
  forall c, P c.
Proof.
  intros Hstep [n p]. revert p.
  induction n as [| | | | | | | kvs IH | kvs IH | xs IH | xs IH | xs IH] using PyVal_nested_ind;
    intros p; apply Hstep; intros [m q] Hin;
    try (rewrite children_on_data in Hin by reflexivity; destruct Hin).
  - destruct (children_node _ _ Hin) as [(l & <- & _ & Hm) | [Hf _]];
      [| discriminate Hf].
    simpl in Hm. apply in_map_iff in Hm as (kv & Hkv & Hl).
    rewrite Forall_forall in IH. simpl in Hkv. rewrite <- Hkv.
    apply IH. apply list_elem_of_In. exact Hl.
  - destruct (children_node _ _ Hin) as [(l & <- & _ & Hm) | [Hf _]];
      [| discriminate Hf].
    simpl in Hm. apply in_map_iff in Hm as (kv & Hkv & Hl).
    rewrite Forall_forall in IH. simpl in Hkv. rewrite <- Hkv.
    apply IH. apply list_elem_of_In. exact Hl.
  - destruct (children_node _ _ Hin) as [(l & _ & Hf & _) | [_ Hm]];
      [discriminate Hf |].
    simpl in Hm. rewrite Forall_forall in IH.
    apply IH. apply list_elem_of_In. exact Hm.
  - destruct (children_node _ _ Hin) as [(l & _ & Hf & _) | [_ Hm]];
      [discriminate Hf |].
    simpl in Hm. rewrite Forall_forall in IH.
    apply IH. apply list_elem_of_In. exact Hm.
  - destruct (children_node _ _ Hin) as [(l & _ & Hf & _) | [_ Hm]];
      [discriminate Hf |].
    simpl in Hm. rewrite Forall_forall in IH.
    apply IH. apply list_elem_of_In. exact Hm.
Qed.

(** A child sits one segment below its parent. *)
Lemma children_path (c ch : JsonCursor) :
  In ch (children c) -> exists seg, path ch = path c ++ [seg].
Proof.
  unfold children. destruct (on_dict c); [| destruct (on_list c)].
  - intros Hin. apply in_map_iff in Hin as (kv & <- & _). eexists. reflexivity.
  - intros Hin. apply in_map_iff in Hin as (ix & <- & _). eexists. reflexivity.
  - intros [].
Qed.

Lemma NoDup_map_inj {A B} (f : A -> B) (l : list A) :
  (forall x y, f x = f y -> x = y) -> NoDup l -> NoDup (map f l).
Proof.
  intros Hinj. induction 1 as [| a l Ha _ IH]; simpl; [apply NoDup_nil_2 |].
  apply NoDup_cons_2; [| exact IH].
  intros Hin. apply list_elem_of_In, in_map_iff in Hin as (b & Hb & Hin).
  apply Hinj in Hb as ->. apply Ha, list_elem_of_In. exact Hin.
Qed.

Lemma snoc_inj_path (p : Path) (s1 s2 : Segment) : p ++ [s1] = p ++ [s2] -> s1 = s2.
Proof. intros H. apply app_inv_head in H. injection H as H. exact H. Qed.

(** With unique keys the children of a cursor have pairwise different
    paths. *)
Lemma children_paths_NoDup (c : JsonCursor) :
  unique_keys (node c) = true -> NoDup (map path (children c)).
Proof.
  destruct c as [n p]. unfold children, on_dict, on_list.
  destruct n; simpl; try (intros _; apply NoDup_nil_2).
  - intros Hu. apply andb_true_iff in Hu as [Hnd _].
    apply bool_decide_eq_true in Hnd. rewrite map_map. simpl.
    rewrite <- (map_map fst (fun k => p ++ [SKey k])).
    apply NoDup_map_inj; [| exact Hnd].
    intros k1 k2 H. apply snoc_inj_path in H. injection H as H. exact H.
  - intros Hu. apply andb_true_iff in Hu as [Hnd _].
    apply bool_decide_eq_true in Hnd. rewrite map_map. simpl.
    rewrite <- (map_map fst (fun k => p ++ [SKey k])).
    apply NoDup_map_inj; [| exact Hnd].
    intros k1 k2 H. apply snoc_inj_path in H. injection H as H. exact H.
  - intros _. rewrite map_map. simpl.
    rewrite <- (map_map fst (fun i => p ++ [SIdx (Z.of_nat i)])).
    rewrite enumerate_from_fst.
    apply NoDup_map_inj; [| apply NoDup_seq].
    intros i j H. apply snoc_inj_path in H. injection H as H. lia.
  - intros _. rewrite map_map. simpl.
    rewrite <- (map_map fst (fun i => p ++ [SIdx (Z.of_nat i)])).
    rewrite enumerate_from_fst.
    apply NoDup_map_inj; [| apply NoDup_seq].
    intros i j H. apply snoc_inj_path in H. injection H as H. lia.
  - intros _. rewrite map_map. simpl.
    rewrite <- (map_map fst (fun i => p ++ [SIdx (Z.of_nat i)])).
    rewrite enumerate_from_fst.
    apply NoDup_map_inj; [| apply NoDup_seq].
    intros i j H. apply snoc_inj_path in H. injection H as H. lia.
Qed.

Lemma children_unique_keys (c ch : JsonCursor) :
  unique_keys (node c) = true -> In ch (children c) -> unique_keys (node ch) = true.
Proof.
  intros Hu Hin.
  destruct (children_node _ _ Hin) as [(l & <- & Hm & Hch) | [Hm Hch]].
  - apply in_map_iff in Hch as ([k v] & <- & Hkv).
    destruct (node c); try discriminate Hm; simpl in *;
      apply andb_true_iff in Hu as [_ Hu];
      exact (unique_keys_entry _ _ _ Hu Hkv).
  - destruct (node c); try discriminate Hm; simpl in *; try destruct Hch;
      rewrite forallb_forall in Hu; apply Hu; assumption.
Qed.


(** ** Visit *)

Section VisitUnfold.
Context {St : Type} (handler : Handler St).

Lemma for_items_for_each (p : Path) (kvs : list (string * PyVal)) :
  forall s,
    for_items (fun key val => _recursive_visit handler val (p ++ [SKey key])) kvs s
    = for_each (fun x => visit x handler)
        (map (fun kv => mkCursor (snd kv) (p ++ [SKey (fst kv)])) kvs) s.
Proof.
  induction kvs as [| [k v] rest IH]; intros s; simpl; [reflexivity |].
  unfold bind, visit at 1. simpl.
  destruct (_recursive_visit handler v (p ++ [SKey k]) s) as [s' [[] | e]];
    [apply IH | reflexivity].
Qed.

Lemma for_enumerate_for_each (p : Path) (xs : list PyVal) :
  forall i s,
    for_enumerate
      (fun index item => _recursive_visit handler item (p ++ [SIdx (Z.of_nat index)]))
      i xs s
    = for_each (fun x => visit x handler)
        (map (fun ix => mkCursor (snd ix) (p ++ [SIdx (Z.of_nat (fst ix))]))
           (enumerate_from i xs)) s.
Proof.
  induction xs as [| x rest IH]; intros i s; simpl; [reflexivity |].
  unfold bind, visit at 1. simpl.
  destruct (_recursive_visit handler x (p ++ [SIdx (Z.of_nat i)]) s) as [s' [[] | e]];
    [apply IH | reflexivity].
Qed.

(** One level of [visit]: the entering call, the test for exactly
    [False], and then the descent. *)
Lemma visit_unfold (c : JsonCursor) (s : St) :
  visit c handler s
  = match handler c true s with
    | (s1, Ok v) => if is_False v then (s1, Ok tt) else descend handler c s1
    | (s1, Raise e) => (s1, Raise e)
    end.
Proof.
  destruct c as [n p]. unfold visit, descend, children, on_data, on_dict, on_list.
  destruct n; simpl; unfold bind;
    destruct (handler _ true s) as [s1 [v | e]]; try reflexivity;
    destruct (is_False v); try reflexivity; simpl.
  - rewrite for_items_for_each.
    destruct (for_each _ _ s1) as [s2 [[] | e]]; reflexivity.
  - rewrite for_items_for_each.
    destruct (for_each _ _ s1) as [s2 [[] | e]]; reflexivity.
  - rewrite for_enumerate_for_each.
    destruct (for_each _ _ s1) as [s2 [[] | e]]; reflexivity.
  - rewrite for_enumerate_for_each.
    destruct (for_each _ _ s1) as [s2 [[] | e]]; reflexivity.
  - rewrite for_enumerate_for_each.
    destruct (for_each _ _ s1) as [s2 [[] | e]]; reflexivity.
Qed.
End VisitUnfold.

Lemma is_False_iff (v : PyVal) : is_False v = true <-> v = PyBool false.
Proof.
  destruct v as [| [|] | | | | | | | | | |]; simpl; split; intros H;
    try discriminate H; reflexivity.
Qed.

(** C3. For every handler and cursor: when the entering call returns exactly
    [False], [visit] ends there, after that one call (no child is visited
    and there is no exit call); when it returns anything else the descent
    takes place: every child is visited in turn and a container gets its
    exit call. [0], [0.0], the empty string and [None] are not [False]. *)
Theorem visit_prunes_on_False_only :
  forall (St : Type) (handler : Handler St) (c : JsonCursor)
         (s s1 : St) (l : list Call) (v : PyVal),
    handler c true s = (s1, Ok v) ->
    (v = PyBool false ->
     visit c (logged handler) (s, l) = ((s1, l ++ [(c, true)]), Ok tt)) /\
    (v <> PyBool false ->
     visit c (logged handler) (s, l)
     = descend (logged handler) c (s1, l ++ [(c, true)])) /\
    is_False (PyInt 0) = false /\ is_False (PyFloat 0) = false /\
    is_False (PyStr EmptyString) = false /\ is_False PyNone = false.
Proof.
  intros St handler c s s1 l v Hv.
  assert (Hlog : logged handler c true (s, l) = ((s1, l ++ [(c, true)]), Ok v)).
  { unfold logged. simpl. rewrite Hv. reflexivity. }
  split; [| split; [| repeat split]].
  - intros ->. rewrite visit_unfold, Hlog. reflexivity.
  - intros Hne. rewrite visit_unfold, Hlog.
    destruct (is_False v) eqn:Hf; [| reflexivity].
    apply is_False_iff in Hf. contradiction.
Qed.

Section VisitCalls.
Context {St : Type} (handler : Handler St).
Hypothesis Hnp : non_pruning handler.

Lemma for_each_logged_calls (chs : list JsonCursor) :
  (forall ch, In ch chs ->
              forall s l, exists s',
                visit ch (logged handler) (s, l) = ((s', l ++ calls ch), Ok tt)) ->
  forall s l, exists s',
    for_each (fun x => visit x (logged handler)) chs (s, l)
    = ((s', l ++ flat_map calls chs), Ok tt).
Proof.
  induction chs as [| ch chs IH]; intros Hch s l; simpl.
  - exists s. rewrite app_nil_r. reflexivity.
  - destruct (Hch ch (or_introl eq_refl) s l) as [s1 H1].
    unfold bind. rewrite H1.
    destruct (IH (fun x Hx => Hch x (or_intror Hx)) s1 (l ++ calls ch)) as [s2 H2].
    exists s2. rewrite H2, <- app_assoc. reflexivity.
Qed.

(** An unpruned traversal issues exactly the calls of [calls], in that
    order, and returns nothing. *)
Lemma visit_logged_calls (c : JsonCursor) :
  forall s l, exists s',
    visit c (logged handler) (s, l) = ((s', l ++ calls c), Ok tt).
Proof.
  induction c as [c IH] using cursor_ind. intros s l.
  destruct (Hnp c true s) as (s1 & v & Hv & Hf).
  rewrite visit_unfold. unfold logged at 1. simpl. rewrite Hv, (Hf eq_refl).
  rewrite calls_children. unfold descend.
  destruct (on_data c).
  - exists s1. reflexivity.
  - destruct (for_each_logged_calls (children c) IH s1 (l ++ [(c, true)]))
      as [s2 H2].
    unfold bind. rewrite H2.
    destruct (Hnp c false s2) as (s3 & v' & Hv' & _).
    unfold logged. simpl. rewrite Hv'.
    exists s3. simpl. rewrite <- !app_assoc. reflexivity.
Qed.
End VisitCalls.

(** Every call of [calls c] is at a cursor whose path extends the path of
    [c]. *)
Lemma calls_path (c : JsonCursor) :
  forall x e, In (x, e) (calls c) -> exists suffix, path x = path c ++ suffix.
Proof.
  induction c as [c IH] using cursor_ind. intros x e.
  rewrite calls_children. intros [Heq | Hin].
  - injection Heq as <- _. exists []. rewrite app_nil_r. reflexivity.
  - destruct (on_data c); [destruct Hin |].
    apply in_app_iff in Hin as [Hin | [Heq | []]].
    + apply in_flat_map in Hin as (ch & Hch & Hin).
      destruct (IH ch Hch x e Hin) as [suffix Hp].
      destruct (children_path c ch Hch) as [seg Hseg].
      exists (seg :: suffix). rewrite Hp, Hseg, <- app_assoc. reflexivity.
    + injection Heq as <- _. exists []. rewrite app_nil_r. reflexivity.
Qed.

Lemma calls_below_child (c ch : JsonCursor) (x : JsonCursor) (e : bool) :
  In ch (children c) -> In (x, e) (calls ch) ->
  exists seg suffix, path ch = path c ++ [seg] /\ path x = path c ++ seg :: suffix.
Proof.
  intros Hch Hin.
  destruct (children_path c ch Hch) as [seg Hseg].
  destruct (calls_path ch x e Hin) as [suffix Hp].
  exists seg, suffix. split; [exact Hseg |].
  rewrite Hp, Hseg, <- app_assoc. reflexivity.
Qed.

Lemma path_not_below (p : Path) (seg : Segment) (suffix : Path) :
  p ++ seg :: suffix <> p.
Proof.
  intros H. apply (f_equal (@length Segment)) in H.
  rewrite length_app in H. simpl in H. lia.
Qed.

Lemma NoDup_flat_map_calls (c : JsonCursor) (chs : list JsonCursor) :
  (forall ch, In ch chs -> In ch (children c)) ->
  NoDup (map path chs) ->
  (forall ch, In ch chs -> NoDup (calls ch)) ->
  NoDup (flat_map calls chs).
Proof.
  induction chs as [| ch chs IH]; intros Hsub Hnd Hch; simpl; [apply NoDup_nil_2 |].
  simpl in Hnd. apply NoDup_cons in Hnd as [Hfresh Hnd].
  apply NoDup_app. split; [apply Hch; left; reflexivity |].
  split;
    [| apply IH;
       [intros x Hx; apply Hsub; right; exact Hx | exact Hnd
       | intros x Hx; apply Hch; right; exact Hx]].
  intros [x e] Hin1 Hin2.
  apply list_elem_of_In in Hin1. apply list_elem_of_In in Hin2.
  apply in_flat_map in Hin2 as (ch' & Hch' & Hin2).
  destruct (calls_below_child c ch x e (Hsub ch (or_introl eq_refl)) Hin1)
    as (seg & suffix & Hseg & Hp).
  destruct (calls_below_child c ch' x e (Hsub ch' (or_intror Hch')) Hin2)
    as (seg' & suffix' & Hseg' & Hp').
  rewrite Hp in Hp'. apply app_inv_head in Hp'. injection Hp' as -> _.
  apply Hfresh. apply list_elem_of_In. rewrite Hseg, <- Hseg'.
  apply in_map. exact Hch'.
Qed.

(** With unique keys no call occurs twice in [calls c]. *)
Lemma calls_NoDup (c : JsonCursor) :
  unique_keys (node c) = true -> NoDup (calls c).
Proof.
  induction c as [c IH] using cursor_ind. intros Hu.
  rewrite calls_children.
  destruct (on_data c); [apply NoDup_singleton |].
  assert (Hbody : NoDup (flat_map calls (children c))).
  { apply (NoDup_flat_map_calls c); [auto | exact (children_paths_NoDup c Hu) |].
    intros ch Hch. apply IH; [exact Hch |].
    exact (children_unique_keys c ch Hu Hch). }
  assert (Hout : forall e, ~ In (c, e) (flat_map calls (children c))).
  { intros e Hin. apply in_flat_map in Hin as (ch & Hch & Hin).
    destruct (calls_below_child c ch c e Hch Hin) as (seg & suffix & _ & Hp).
    symmetry in Hp. exact (path_not_below _ _ _ Hp). }
  apply NoDup_cons. split.
  - intros Hin. apply list_elem_of_In, in_app_iff in Hin as [Hin | [Heq | []]].
    + exact (Hout true Hin).
    + discriminate Heq.
  - apply NoDup_app. split; [exact Hbody |].
    split; [| apply NoDup_singleton].
    intros y Hy1 Hy2. apply list_elem_of_In in Hy1.
    apply list_elem_of_In in Hy2. destruct Hy2 as [<- | []].
    exact (Hout false Hy1).
Qed.







(** The theorem of C3 at a list node and a handler returning [0]: the
    traversal goes on. *)
Lemma visit_prunes_on_False_only_witness :
  visit (mkCursor (PyList [PyInt 1]) []) (logged zero_handler) (tt, [])
  = descend (logged zero_handler) (mkCursor (PyList [PyInt 1]) [])
      (tt, [(mkCursor (PyList [PyInt 1]) [], true)]).
Proof.
  apply (proj1 (proj2 (visit_prunes_on_False_only unit zero_handler
                         (mkCursor (PyList [PyInt 1]) []) tt tt [] (PyInt 0)
                         eq_refl))).
  discriminate.
Defined.


Lemma silent_handler_non_pruning : non_pruning silent_handler.
Proof. intros c entering s. exists s, PyNone. split; reflexivity. Defined.


(** ** The path as a list object *)

Lemma deref_new_list (l : Path) (σ : gmap nat Path) :
  Aliasing.deref (snd (Aliasing.new_list l σ)) (fst (Aliasing.new_list l σ)) = l.
Proof. unfold Aliasing.deref, Aliasing.new_list. simpl. rewrite lookup_insert_eq. reflexivity. Qed.

(** [__getattr__] on stored cursors is [__getattr__] of the pure model on
    the cursors they stand for. *)
Lemma getattr_abstract (σ : gmap nat Path) (c : Aliasing.Cursor) (name : string) :
  match Aliasing.__getattr__ c name σ with
  | (Ok c', σ') => __getattr__ (Aliasing.abstract σ c) name = Ok (Aliasing.abstract σ' c')
  | (Raise e, σ') => __getattr__ (Aliasing.abstract σ c) name = Raise e /\ σ' = σ
  end.
Proof.
  unfold Aliasing.__getattr__, __getattr__.
  change (node (Aliasing.abstract σ c)) with (Aliasing.node_of c).
  change (path (Aliasing.abstract σ c)) with (Aliasing.deref σ (Aliasing.path_ref c)).
  destruct (isinstance_dict (Aliasing.node_of c)); [| split; reflexivity].
  destruct (dict_get name (items (Aliasing.node_of c))) as [child |];
    [| split; reflexivity].
  remember (Aliasing.deref σ (Aliasing.path_ref c) ++ [SKey name]) as l eqn:Hl.
  pose proof (deref_new_list l σ) as Hnew.
  destruct (Aliasing.new_list l σ) as [r σ1]. cbn [fst snd] in Hnew.
  unfold Aliasing.__init__. rewrite Hnew.
  destruct l as [| seg rest].
  - symmetry in Hl. apply app_eq_nil in Hl as [_ Hl]. discriminate Hl.
  - unfold Aliasing.abstract. cbn [Aliasing.node_of Aliasing.path_ref].
    rewrite Hnew. reflexivity.
Qed.

(** C8, counterexample. The list [get_path] returns for a new root cursor is
    the cursor's own: appending to it changes the path of the cursor from
    [[]] to [["x"]]. *)
Lemma get_path_append_changes_cursor :
  Aliasing.__init__ (PyDict [("a", PyInt 1)]) None ∅
  = (Aliasing.mkHeapCursor (PyDict [("a", PyInt 1)]) 0%nat, {[ 0%nat := [] ]}) /\
  Aliasing.deref {[ 0%nat := [] ]}
    (Aliasing.path_ref (Aliasing.mkHeapCursor (PyDict [("a", PyInt 1)]) 0%nat)) = [] /\
  Aliasing.deref
    (Aliasing.append (SKey "x")
       (Aliasing.get_path (Aliasing.mkHeapCursor (PyDict [("a", PyInt 1)]) 0%nat))
       {[ 0%nat := [] ]})
    (Aliasing.path_ref (Aliasing.mkHeapCursor (PyDict [("a", PyInt 1)]) 0%nat))
  = [SKey "x"] /\
  ~ get_path_copies {[ 0%nat := [] ]}
      (Aliasing.mkHeapCursor (PyDict [("a", PyInt 1)]) 0%nat) (fun l => l ++ [SKey "x"]).
Proof.
  assert (Happ : Aliasing.deref
                   (Aliasing.mutate (fun l => l ++ [SKey "x"]) 0%nat {[ 0%nat := [] ]})
                   0%nat = [SKey "x"]).
  { unfold Aliasing.deref, Aliasing.mutate.
    rewrite lookup_alter_eq, lookup_singleton_eq. reflexivity. }
  split; [| split; [| split]].
  - unfold Aliasing.__init__, Aliasing.new_list. f_equal.
  - unfold Aliasing.deref. simpl. rewrite lookup_singleton_eq. reflexivity.
  - exact Happ.
  - intros [_ H]. simpl in H. rewrite Happ in H.
    unfold Aliasing.deref in H. rewrite lookup_singleton_eq in H. discriminate H.
Qed.

(** C8, as the code has it. [get_path] returns the cursor's own path list,
    not a copy: the returned list is the cursor's path, a change made to it
    is a change of the cursor's path, which later operations on the cursor
    see, and no other list object is changed. *)
Theorem get_path_returns_own_list :
  forall (σ : gmap nat Path) (c : Aliasing.Cursor) (f : Path -> Path),
    is_Some (σ !! Aliasing.path_ref c) ->
    Aliasing.get_path c = Aliasing.path_ref c /\
    Aliasing.deref σ (Aliasing.get_path c) = path (Aliasing.abstract σ c) /\
    path (Aliasing.abstract (Aliasing.mutate f (Aliasing.get_path c) σ) c)
    = f (path (Aliasing.abstract σ c)) /\
    (forall r, r <> Aliasing.path_ref c ->
               Aliasing.deref (Aliasing.mutate f (Aliasing.get_path c) σ) r
               = Aliasing.deref σ r) /\
    (forall name c' σ',
        Aliasing.__getattr__ c name (Aliasing.mutate f (Aliasing.get_path c) σ)
        = (Ok c', σ') ->
        path (Aliasing.abstract σ' c') = f (path (Aliasing.abstract σ c)) ++ [SKey name]).
Proof.
  intros σ c f [l Hl].
  assert (Hmut : Aliasing.deref (Aliasing.mutate f (Aliasing.get_path c) σ)
                   (Aliasing.path_ref c)
                 = f (Aliasing.deref σ (Aliasing.path_ref c))).
  { unfold Aliasing.deref, Aliasing.mutate, Aliasing.get_path.
    rewrite lookup_alter_eq, Hl. reflexivity. }
  split; [reflexivity |]. split; [reflexivity |]. split; [exact Hmut |].
  split.
  - intros r Hr. unfold Aliasing.deref, Aliasing.mutate, Aliasing.get_path.
    rewrite lookup_alter_ne by congruence. reflexivity.
  - intros name c' σ' Hget.
    pose proof (getattr_abstract (Aliasing.mutate f (Aliasing.get_path c) σ) c name)
      as Habs.
    rewrite Hget in Habs.
    destruct (getattr_Ok_inv _ _ _ Habs) as (_ & _ & _ & Hp).
    rewrite Hp. simpl. rewrite Hmut. reflexivity.
Qed.

(** The theorem of C8 at a new root cursor and [append]. *)
Lemma get_path_returns_own_list_witness :
  path (Aliasing.abstract
          (Aliasing.mutate (fun l => l ++ [SKey "x"])
             (Aliasing.get_path (Aliasing.mkHeapCursor (PyDict [("a", PyInt 1)]) 0%nat))
             {[ 0%nat := [] ]})
          (Aliasing.mkHeapCursor (PyDict [("a", PyInt 1)]) 0%nat))
  = path (Aliasing.abstract {[ 0%nat := [] ]}
            (Aliasing.mkHeapCursor (PyDict [("a", PyInt 1)]) 0%nat)) ++ [SKey "x"].
Proof.
  refine (proj1 (proj2 (proj2 (get_path_returns_own_list {[ 0%nat := [] ]}
                                 (Aliasing.mkHeapCursor (PyDict [("a", PyInt 1)]) 0%nat)
                                 (fun l => l ++ [SKey "x"]) _)))).
  exists []. vm_compute. reflexivity.
Defined.

(** * Further properties *)

(** ** Search: where it stops and what it raises *)

Lemma scan_first_match (predicate : Predicate) (before after : list JsonCursor)
    (x : JsonCursor) (v : PyVal) :
  (forall y, In y before -> exists w, predicate y = Ok w /\ truthy w = false) ->
  predicate x = Ok v -> truthy v = true ->
  scan predicate (before ++ x :: after) = Ok (Some x).
Proof.
  intros Hb Hx Hv. induction before as [| y before IH]; simpl.
  - rewrite Hx, Hv. reflexivity.
  - destruct (Hb y (or_introl eq_refl)) as (w & Hy & Hw). rewrite Hy, Hw.
    apply IH. intros z Hz. apply Hb. right. exact Hz.
Qed.

Lemma scan_raise_iff (predicate : Predicate) (cs : list JsonCursor) (e : PyExc) :
  scan predicate cs = Raise e
  <-> exists before x after,
        cs = before ++ x :: after /\
        (forall y, In y before -> exists w, predicate y = Ok w /\ truthy w = false) /\
        predicate x = Raise e.
Proof.
  induction cs as [| c cs IH]; simpl.
  - split; [discriminate |].
    intros (before & x & after & H & _). destruct before; discriminate H.
  - destruct (predicate c) as [v | e'] eqn:Hc.
    + destruct (truthy v) eqn:Hv.
      * split; [discriminate |].
        intros ([| y before] & x & after & H & Hb & Hx); injection H as <- _.
        -- rewrite Hx in Hc. discriminate Hc.
        -- destruct (Hb c (or_introl eq_refl)) as (w & Hw & Hf).
           rewrite Hw in Hc. injection Hc as ->. rewrite Hf in Hv. discriminate Hv.
      * rewrite IH. split.
        -- intros (before & x & after & -> & Hb & Hx).
           exists (c :: before), x, after. split; [reflexivity |]. split; [| exact Hx].
           intros y [<- | Hy]; [exists v; auto | exact (Hb y Hy)].
        -- intros ([| y before] & x & after & H & Hb & Hx); injection H as <- ->.
           ++ rewrite Hx in Hc. discriminate Hc.
           ++ exists before, x, after. split; [reflexivity |]. split; [| exact Hx].
              intros z Hz. apply Hb. right. exact Hz.
    + split.
      * intros H. injection H as ->. exists [], c, cs.
        split; [reflexivity |]. split; [intros y [] | exact Hc].
      * intros ([| y before] & x & after & H & Hb & Hx); injection H as <- _.
        -- rewrite Hx in Hc. injection Hc as ->. reflexivity.
        -- destruct (Hb c (or_introl eq_refl)) as (w & Hw & _).
           rewrite Hw in Hc. discriminate Hc.
Qed.

(** X1. [search] stops at the first match: when the predicate returns
    falsy objects on the cursors before [x] in pre-order and a truthy one
    at [x], the result is [x], whatever the predicate would do on the
    cursors after [x], raising included. *)
Theorem search_stops_at_first_match :
  forall (predicate : Predicate) (c x : JsonCursor)
         (before after : list JsonCursor) (v : PyVal),
    preorder c = before ++ x :: after ->
    (forall y, In y before -> exists w, predicate y = Ok w /\ truthy w = false) ->
    predicate x = Ok v -> truthy v = true ->
    search c predicate = Ok (Some x).
Proof.
  intros predicate c x before after v Hp Hb Hx Hv.
  unfold search. unfold preorder in Hp. rewrite search_scan, Hp.
  exact (scan_first_match predicate before after x v Hb Hx Hv).
Qed.

(** The theorem at [[1, 2]] and a predicate that raises on [2]: the search
    returns the cursor of [1]. *)
Lemma search_stops_at_first_match_witness :
  search (mkCursor (PyList [PyInt 1; PyInt 2]) []) one_or_raise
  = Ok (Some (mkCursor (PyInt 1) [SIdx 0])).
Proof.
  apply (search_stops_at_first_match one_or_raise
           (mkCursor (PyList [PyInt 1; PyInt 2]) []) (mkCursor (PyInt 1) [SIdx 0])
           [mkCursor (PyList [PyInt 1; PyInt 2]) []] [mkCursor (PyInt 2) [SIdx 1]]
           (PyBool true)).
  - reflexivity.
  - intros y [<- | []]. exists PyNone. split; reflexivity.
  - reflexivity.
  - reflexivity.
Defined.

(** X2. [search] raises exactly what the predicate raises: it ends in the
    exception [e] if and only if the predicate raises [e] at some cursor of
    the subtree and returns a falsy object at every cursor before it in
    pre-order. *)
Theorem search_raises_iff :
  forall (predicate : Predicate) (c : JsonCursor) (e : PyExc),
    search c predicate = Raise e
    <-> exists before x after,
          preorder c = before ++ x :: after /\
          (forall y, In y before -> exists w, predicate y = Ok w /\ truthy w = false) /\
          predicate x = Raise e.
Proof.
  intros predicate c e. unfold search, preorder. rewrite search_scan.
  apply scan_raise_iff.
Qed.

(** ** Cursors of a tree *)

Lemma preorder_self (c : JsonCursor) : In c (preorder c).
Proof. rewrite preorder_children. left. reflexivity. Qed.

Lemma preorder_child (c ch : JsonCursor) : In ch (children c) -> In ch (preorder c).
Proof.
  intros H. rewrite preorder_children. right. apply in_flat_map.
  exists ch. split; [exact H | apply preorder_self].
Qed.

Lemma preorder_trans (c : JsonCursor) :
  forall x y, In x (preorder c) -> In y (preorder x) -> In y (preorder c).
Proof.
  induction c as [c IH] using cursor_ind. intros x y Hx Hy.
  rewrite preorder_children in Hx. destruct Hx as [<- | Hx]; [exact Hy |].
  apply in_flat_map in Hx as (ch & Hch & Hx).
  rewrite preorder_children. right. apply in_flat_map.
  exists ch. split; [exact Hch | exact (IH ch Hch x y Hx Hy)].
Qed.

(** Every cursor of a subtree has a path that extends the path of its
    root. *)
Lemma preorder_path (c : JsonCursor) :
  forall x, In x (preorder c) -> exists suffix, path x = path c ++ suffix.
Proof.
  induction c as [c IH] using cursor_ind. intros x.
  rewrite preorder_children. intros [<- | Hin].
  - exists []. rewrite app_nil_r. reflexivity.
  - apply in_flat_map in Hin as (ch & Hch & Hin).
    destruct (IH ch Hch x Hin) as [suffix Hp].
    destruct (children_path c ch Hch) as [seg Hseg].
    exists (seg :: suffix). rewrite Hp, Hseg, <- app_assoc. reflexivity.
Qed.

Lemma enumerate_from_lookup {A} (xs : list A) (j : nat) (x : A) :
  forall i, xs !! j = Some x -> In ((i + j)%nat, x) (enumerate_from i xs).
Proof.
  revert j. induction xs as [| a xs IH]; intros j i Hj; [discriminate Hj |].
  destruct j as [| j]; simpl.
  - injection Hj as ->. left. rewrite Nat.add_0_r. reflexivity.
  - right. rewrite Nat.add_succ_r. exact (IH j (S i) Hj).
Qed.

Lemma getattr_child (c c' : JsonCursor) (name : string) :
  __getattr__ c name = Ok c' -> In c' (children c).
Proof.
  destruct c as [n p]. unfold __getattr__, children, on_dict. simpl.
  destruct n; simpl; try discriminate.
  destruct (dict_get name entries) as [child |] eqn:Hg; [| discriminate].
  intros H. injection H as <-.
  apply in_map_iff. exists (name, child). split; [reflexivity |].
  exact (dict_get_Some_In _ _ _ Hg).
Qed.

Lemma getitem_child (c c' : JsonCursor) (index : Z) :
  __getitem__ c index = Ok c' -> In c' (children c).
Proof.
  destruct c as [n p]. unfold __getitem__, children, on_dict, on_list. simpl.
  destruct n; simpl; try discriminate.
  destruct ((0 <=? index) && (index <? len (PyList elems))) eqn:Hb; [| discriminate].
  destruct (elems !! Z.to_nat index) as [child |] eqn:Hl; [| discriminate].
  intros H. injection H as <-.
  apply andb_true_iff in Hb as [H0 _]. apply Z.leb_le in H0.
  apply in_map_iff. exists (Z.to_nat index, child). simpl.
  rewrite Z2Nat.id by exact H0. split; [reflexivity |].
  exact (enumerate_from_lookup elems (Z.to_nat index) child 0%nat Hl).
Qed.

Lemma reachable_preorder (searching : bool) (root : PyVal) (c : JsonCursor) :
  reachable searching root c -> In c (preorder (__init__ root None)).
Proof.
  induction 1 as [| c name c' _ IH Hstep | c index c' _ IH Hstep
                  | c predicate c' _ _ IH Hstep].
  - apply preorder_self.
  - apply (preorder_trans _ c c' IH). apply preorder_child.
    exact (getattr_child _ _ _ Hstep).
  - apply (preorder_trans _ c c' IH). apply preorder_child.
    exact (getitem_child _ _ _ Hstep).
  - apply (preorder_trans _ c c' IH). exact (search_Some_In _ _ _ Hstep).
Qed.

(** X3. Navigation and search stay inside the tree: every cursor reachable
    from the root cursor, on any tree, is one of the cursors of the root's
    subtree, the node together with the path that leads to it. *)
Theorem reachable_in_tree :
  forall (searching : bool) (root : PyVal) (c : JsonCursor),
    reachable searching root c -> In c (preorder (__init__ root None)).
Proof. exact reachable_preorder. Qed.

(** The theorem at the tuple [(1,)] and the cursor a search finds in it. *)
Lemma reachable_in_tree_witness :
  In (mkCursor (PyInt 1) [SIdx 0]) (preorder (__init__ (PyTuple [PyInt 1]) None)).
Proof.
  apply (reachable_in_tree true).
  eapply (reach_search true _ _ (fun c => Ok (PyBool (on_data c))));
    [reflexivity | apply reach_root | reflexivity].
Defined.

Lemma NoDup_map_In_inj {A B} (f : A -> B) (l : list A) (a b : A) :
  NoDup (map f l) -> In a l -> In b l -> f a = f b -> a = b.
Proof.
  induction l as [| x l IH]; simpl; [intros _ [] |].
  intros Hnd Ha Hb Hf. apply NoDup_cons in Hnd as [Hx Hnd].
  destruct Ha as [-> | Ha], Hb as [-> | Hb]; auto.
  - exfalso. apply Hx. apply list_elem_of_In. rewrite Hf. apply in_map. exact Hb.
  - exfalso. apply Hx. apply list_elem_of_In. rewrite <- Hf. apply in_map. exact Ha.
Qed.

Lemma preorder_below_child (c ch x : JsonCursor) :
  In ch (children c) -> In x (preorder ch) ->
  exists seg suffix, path ch = path c ++ [seg] /\ path x = path c ++ seg :: suffix.
Proof.
  intros Hch Hx.
  destruct (children_path c ch Hch) as [seg Hseg].
  destruct (preorder_path ch x Hx) as [suffix Hp].
  exists seg, suffix. split; [exact Hseg |].
  rewrite Hp, Hseg, <- app_assoc. reflexivity.
Qed.

(** With unique keys, two cursors of a subtree with the same path are the
    same cursor. *)
Lemma preorder_path_inj (c : JsonCursor) :
  unique_keys (node c) = true ->
  forall x y, In x (preorder c) -> In y (preorder c) -> path x = path y -> x = y.
Proof.
  induction c as [c IH] using cursor_ind. intros Hu x y.
  rewrite preorder_children. intros [<- | Hx] [<- | Hy] Hp; [reflexivity | | |].
  - apply in_flat_map in Hy as (ch & Hch & Hy).
    destruct (preorder_below_child c ch y Hch Hy) as (seg & suffix & _ & Hq).
    rewrite Hq in Hp. exfalso. exact (path_not_below _ _ _ (eq_sym Hp)).
  - apply in_flat_map in Hx as (ch & Hch & Hx).
    destruct (preorder_below_child c ch x Hch Hx) as (seg & suffix & _ & Hq).
    rewrite Hq in Hp. exfalso. exact (path_not_below _ _ _ Hp).
  - apply in_flat_map in Hx as (ch & Hch & Hx).
    apply in_flat_map in Hy as (ch' & Hch' & Hy).
    destruct (preorder_below_child c ch x Hch Hx) as (seg & suffix & Hseg & Hq).
    destruct (preorder_below_child c ch' y Hch' Hy) as (seg' & suffix' & Hseg' & Hq').
    pose proof Hp as Hxy.
    rewrite Hq, Hq' in Hp. apply app_inv_head in Hp. injection Hp as -> _.
    assert (ch = ch') as <-.
    { apply (NoDup_map_In_inj path (children c)); auto.
      - exact (children_paths_NoDup c Hu).
      - rewrite Hseg, Hseg'. reflexivity. }
    exact (IH ch Hch (children_unique_keys c ch Hu Hch) x y Hx Hy Hxy).
Qed.

(** X4. The path is an address: two cursors reachable from the same root,
    by navigation steps or searches, that have the same path are the same
    cursor (they sit on the same node). *)
Theorem same_path_same_cursor :
  forall (s1 s2 : bool) (root : PyVal) (c1 c2 : JsonCursor),
    unique_keys root = true ->
    reachable s1 root c1 -> reachable s2 root c2 ->
    get_path c1 = get_path c2 -> c1 = c2.
Proof.
  intros s1 s2 root c1 c2 Hu H1 H2 Hp.
  apply (preorder_path_inj (__init__ root None) Hu c1 c2);
    [exact (reachable_preorder _ _ _ H1) | exact (reachable_preorder _ _ _ H2) | exact Hp].
Qed.

(** The theorem at [{"a": [5]}]: the cursor found by searching for the
    terminal and the cursor reached by the steps [a], [0]. *)
Lemma same_path_same_cursor_witness :
  mkCursor (PyInt 5) [SKey "a"; SIdx 0] = mkCursor (PyInt 5) [SKey "a"; SIdx 0].
Proof.
  apply (same_path_same_cursor true false (PyDict [("a", PyList [PyInt 5])])).
  - vm_compute. reflexivity.
  - eapply (reach_search true _ _ (fun c => Ok (PyBool (on_data c))));
      [reflexivity | apply reach_root | reflexivity].
  - eapply (reach_index false _ (mkCursor (PyList [PyInt 5]) [SKey "a"]) 0);
      [| reflexivity].
    eapply (reach_key false _ _ "a"); [apply reach_root | reflexivity].
  - reflexivity.
Defined.

(** ** Visit: pruned traversals *)

Lemma calls_pruned_children (prune : JsonCursor -> bool) (c : JsonCursor) :
  calls_pruned prune c
  = (c, true) ::
    (if prune c then []
     else if on_data c then []
          else flat_map (calls_pruned prune) (children c) ++ [(c, false)]).
Proof.
  destruct c as [n p]. unfold calls_pruned, children, on_data, on_dict, on_list.
  destruct n; simpl; destruct (prune _); try reflexivity; do 2 f_equal.
  - rewrite flat_map_map. reflexivity.
  - rewrite flat_map_map. reflexivity.
  - rewrite flat_enumerate_flat_map, flat_map_map. reflexivity.
  - rewrite flat_enumerate_flat_map, flat_map_map. reflexivity.
  - rewrite flat_enumerate_flat_map, flat_map_map. reflexivity.
Qed.

Lemma run_calls_app {St} (handler : Handler St) (l1 l2 : list Call) (s : St) :
  run_calls handler (l1 ++ l2) s = run_calls handler l2 (run_calls handler l1 s).
Proof. unfold run_calls. apply fold_left_app. Qed.

Section VisitPruned.
Context {St : Type} (handler : Handler St) (prune : JsonCursor -> bool).
Hypothesis Hpr : prunes_at prune handler.

Lemma logged_call (c : JsonCursor) (entering : bool) (s : St) (l : list Call) :
  exists v,
    logged handler c entering (s, l)
    = ((run_calls handler [(c, entering)] s, l ++ [(c, entering)]), Ok v) /\
    (entering = true -> is_False v = prune c).
Proof.
  destruct (Hpr c entering s) as (s' & v & Hv & Hf).
  exists v. unfold logged, run_calls. simpl. rewrite Hv. split; [reflexivity | exact Hf].
Qed.

Lemma for_each_pruned_calls (chs : list JsonCursor) :
  (forall ch, In ch chs ->
              forall s l,
                visit ch (logged handler) (s, l)
                = ((run_calls handler (calls_pruned prune ch) s,
                    l ++ calls_pruned prune ch), Ok tt)) ->
  forall s l,
    for_each (fun x => visit x (logged handler)) chs (s, l)
    = ((run_calls handler (flat_map (calls_pruned prune) chs) s,
        l ++ flat_map (calls_pruned prune) chs), Ok tt).
Proof.
  induction chs as [| ch chs IH]; intros Hch s l; simpl.
  - rewrite app_nil_r. reflexivity.
  - unfold bind. rewrite (Hch ch (or_introl eq_refl) s l).
    rewrite IH by (intros x Hx; apply Hch; right; exact Hx).
    rewrite run_calls_app, <- app_assoc. reflexivity.
Qed.

Lemma visit_logged_pruned (c : JsonCursor) :
  forall s l,
    visit c (logged handler) (s, l)
    = ((run_calls handler (calls_pruned prune c) s, l ++ calls_pruned prune c), Ok tt).
Proof.
  induction c as [c IH] using cursor_ind. intros s l.
  rewrite visit_unfold.
  destruct (logged_call c true s l) as (v & Hv & Hf). rewrite Hv, (Hf eq_refl).
  rewrite calls_pruned_children.
  destruct (prune c); [reflexivity |].
  unfold descend. destruct (on_data c); [reflexivity |].
  unfold bind. rewrite (for_each_pruned_calls (children c) IH).
  destruct (logged_call c false
              (run_calls handler (flat_map (calls_pruned prune) (children c))
                 (run_calls handler [(c, true)] s))
              ((l ++ [(c, true)]) ++ flat_map (calls_pruned prune) (children c)))
    as (v' & Hv' & _).
  rewrite Hv'. simpl.
  change ((c, true) :: flat_map (calls_pruned prune) (children c) ++ [(c, false)])
    with ([(c, true)] ++ flat_map (calls_pruned prune) (children c) ++ [(c, false)]).
  rewrite !run_calls_app, <- !app_assoc. reflexivity.
Qed.
End VisitPruned.

(** X5. A traversal with pruning: for a handler that never raises and
    returns [False] on entering exactly at the cursors where [prune] holds,
    [visit] returns nothing, issues exactly the calls of [calls_pruned] in
    that order (a pruned cursor gets its entering call only, its siblings
    are visited as usual), and leaves the handler in the state these calls
    lead to, one after the other. *)
Theorem visit_pruned_calls :
  forall (St : Type) (handler : Handler St) (prune : JsonCursor -> bool)
         (c : JsonCursor) (s : St) (l : list Call),
    prunes_at prune handler ->
    visit c (logged handler) (s, l)
    = ((run_calls handler (calls_pruned prune c) s, l ++ calls_pruned prune c), Ok tt).
Proof.
  intros St handler prune c s l Hpr.
  exact (visit_logged_pruned handler prune Hpr c s l).
Qed.

Lemma counting_handler_prunes_at (prune : JsonCursor -> bool) :
  prunes_at prune (counting_handler prune).
Proof.
  intros c entering n. exists (S n), (PyBool (negb (prune c))).
  split; [reflexivity |]. intros _. destruct (prune c); reflexivity.
Defined.

(** The theorem at [{"tags": ["x", "y"], "n": 1}] with every list pruned:
    four calls, none of them at an element of the list. *)
Lemma visit_pruned_calls_witness :
  visit (mkCursor (PyDict [("tags", PyList [PyStr "x"; PyStr "y"]); ("n", PyInt 1)]) [])
    (logged (counting_handler on_list)) (0%nat, [])
  = ((4%nat,
      [(mkCursor (PyDict [("tags", PyList [PyStr "x"; PyStr "y"]); ("n", PyInt 1)]) [],
        true);
       (mkCursor (PyList [PyStr "x"; PyStr "y"]) [SKey "tags"], true);
       (mkCursor (PyInt 1) [SKey "n"], true);
       (mkCursor (PyDict [("tags", PyList [PyStr "x"; PyStr "y"]); ("n", PyInt 1)]) [],
        false)]),
     Ok tt).
Proof.
  exact (visit_pruned_calls nat (counting_handler on_list) on_list
           (mkCursor (PyDict [("tags", PyList [PyStr "x"; PyStr "y"]); ("n", PyInt 1)]) [])
           0%nat [] (counting_handler_prunes_at on_list)).
Defined.

Lemma sublist_flat_map {A B} (f g : A -> list B) (l : list A) :
  (forall a, In a l -> sublist (f a) (g a)) ->
  sublist (flat_map f l) (flat_map g l).
Proof.
  induction l as [| a l IH]; intros H; simpl; [apply sublist_nil |].
  apply sublist_app; [apply H; left; reflexivity |].
  apply IH. intros b Hb. apply H. right. exact Hb.
Qed.

Lemma calls_pruned_sub (prune : JsonCursor -> bool) (c : JsonCursor) :
  sublist (calls_pruned prune c) (calls c).
Proof.
  induction c as [c IH] using cursor_ind.
  rewrite calls_pruned_children, calls_children.
  apply sublist_skip. destruct (prune c); [apply sublist_nil_l |].
  destruct (on_data c); [apply sublist_nil |].
  apply sublist_app; [| reflexivity].
  apply sublist_flat_map. exact IH.
Qed.

(** Pruning only leaves calls out: the calls of a pruned traversal are a
    sublist of the calls of the unpruned one, in the same order, and with
    nothing pruned they are the same calls. *)
Lemma calls_pruned_sublist :
  forall (prune : JsonCursor -> bool) (c : JsonCursor),
    sublist (calls_pruned prune c) (calls c) /\
    calls_pruned (fun _ => false) c = calls c.
Proof.
  intros prune c. split; [exact (calls_pruned_sub prune c) |].
  induction c as [c IH] using cursor_ind.
  rewrite calls_pruned_children, calls_children.
  f_equal. destruct (on_data c); [reflexivity |]. f_equal.
  induction (children c) as [| ch chs IHchs]; simpl; [reflexivity |].
  rewrite (IH ch (or_introl eq_refl)), IHchs; [reflexivity |].
  intros x Hx. apply IH. right. exact Hx.
Qed.

Lemma calls_pruned_In_calls (prune : JsonCursor -> bool) (c x : JsonCursor) (e : bool) :
  In (x, e) (calls_pruned prune c) -> In (x, e) (calls c).
Proof.
  intros H. apply list_elem_of_In.
  apply (elem_of_sublist (calls_pruned prune c)); [| apply calls_pruned_sub].
  apply list_elem_of_In. exact H.
Qed.

(** Below a pruned cursor [x] the only call of [calls_pruned] is the
    entering call at [x]. *)
Lemma calls_pruned_silent :
  forall (prune : JsonCursor -> bool) (c x y : JsonCursor) (e : bool),
    unique_keys (node c) = true ->
    In x (preorder c) -> prune x = true ->
    In (y, e) (calls_pruned prune c) -> In y (preorder x) ->
    y = x /\ e = true.
Proof.
  intros prune c. induction c as [c IH] using cursor_ind.
  intros x y e Hu Hx Hpx Hy Hyx.
  rewrite preorder_children in Hx. destruct Hx as [<- | Hx].
  - rewrite calls_pruned_children, Hpx in Hy.
    destruct Hy as [Hy | []]. injection Hy as <- <-. split; reflexivity.
  - apply in_flat_map in Hx as (ch & Hch & Hx).
    destruct (preorder_below_child c ch x Hch Hx) as (seg & suffix & Hseg & Hq).
    destruct (preorder_path x y Hyx) as [suffix' Hq'].
    assert (Hbelow : path y = path c ++ seg :: (suffix ++ suffix')).
    { rewrite Hq', Hq, <- app_assoc. reflexivity. }
    assert (Hself : forall e', (y, e) <> (c, e')).
    { intros e' Heq. injection Heq as -> _.
      exact (path_not_below _ _ _ (eq_sym Hbelow)). }
    rewrite calls_pruned_children in Hy. destruct Hy as [Hy | Hy].
    { exfalso. exact (Hself true (eq_sym Hy)). }
    destruct (prune c); [destruct Hy |].
    destruct (on_data c); [destruct Hy |].
    apply in_app_iff in Hy as [Hy | [Hy | []]].
    + apply in_flat_map in Hy as (ch' & Hch' & Hy).
      pose proof (calls_pruned_In_calls prune ch' y e Hy) as Hyc.
      destruct (calls_below_child c ch' y e Hch' Hyc) as (seg' & suffix'' & Hseg' & Hq'').
      rewrite Hbelow in Hq''. apply app_inv_head in Hq''. injection Hq'' as -> _.
      assert (ch = ch') as <-.
      { apply (NoDup_map_In_inj path (children c)); auto.
        - exact (children_paths_NoDup c Hu).
        - rewrite Hseg, Hseg'. reflexivity. }
      exact (IH ch Hch x y e (children_unique_keys c ch Hu Hch) Hx Hpx Hy Hyx).
    + exfalso. exact (Hself false (eq_sym Hy)).
Qed.

(** X6. A pruned subtree is silent: for a handler that never raises and
    returns [False] on entering exactly where [prune] holds, when [prune]
    holds at a cursor [x] of the tree, the only call [visit] makes at a
    cursor of the subtree of [x] is the entering call at [x] itself; no
    descendant of [x] is called, and [x] gets no exit call. *)
Theorem pruned_subtree_silent :
  forall (St : Type) (handler : Handler St) (prune : JsonCursor -> bool)
         (c x y : JsonCursor) (e : bool) (s : St),
    prunes_at prune handler ->
    unique_keys (node c) = true ->
    In x (preorder c) -> prune x = true ->
    In (y, e) (snd (fst (visit c (logged handler) (s, [])))) ->
    In y (preorder x) ->
    y = x /\ e = true.
Proof.
  intros St handler prune c x y e s Hpr Hu Hx Hpx Hy Hyx.
  rewrite (visit_logged_pruned handler prune Hpr c s []) in Hy. simpl in Hy.
  exact (calls_pruned_silent prune c x y e Hu Hx Hpx Hy Hyx).
Qed.

(** The theorem at [{"tags": ["x", "y"]}] with every list pruned: the call
    at the cursor of the list is its entering call. *)
Lemma pruned_subtree_silent_witness :
  mkCursor (PyList [PyStr "x"; PyStr "y"]) [SKey "tags"]
  = mkCursor (PyList [PyStr "x"; PyStr "y"]) [SKey "tags"] /\ true = true.
Proof.
  apply (pruned_subtree_silent nat (counting_handler on_list) on_list
           (mkCursor (PyDict [("tags", PyList [PyStr "x"; PyStr "y"])]) [])
           (mkCursor (PyList [PyStr "x"; PyStr "y"]) [SKey "tags"])
           (mkCursor (PyList [PyStr "x"; PyStr "y"]) [SKey "tags"]) true 0%nat).
  - exact (counting_handler_prunes_at on_list).
  - vm_compute. reflexivity.
  - right. left. reflexivity.
  - reflexivity.
  - right. left. reflexivity.
  - left. reflexivity.
Defined.

(** ** Visit: any handler *)

Section VisitAnyHandler.
Context {St : Type} (handler : Handler St).

Lemma for_each_summary (chs : list JsonCursor) :
  (forall ch, In ch chs ->
              forall s l, run_summary handler (calls ch) l (visit ch (logged handler) (s, l))) ->
  forall s l,
    run_summary handler (flat_map calls chs) l
      (for_each (fun x => visit x (logged handler)) chs (s, l)).
Proof.
  induction chs as [| ch chs IH]; intros Hch s l; simpl.
  - exists []. simpl. rewrite app_nil_r.
    split; [reflexivity |]. split; [apply sublist_nil | discriminate].
  - destruct (Hch ch (or_introl eq_refl) s l) as (t1 & Hl1 & Hs1 & Hr1).
    unfold bind.
    destruct (visit ch (logged handler) (s, l)) as [[s1 l1] [[] | e1]];
      simpl in Hl1, Hr1; subst l1.
    + destruct (IH (fun x Hx => Hch x (or_intror Hx)) s1 (l ++ t1))
        as (t2 & Hl2 & Hs2 & Hr2).
      exists (t1 ++ t2). rewrite Hl2, <- app_assoc.
      split; [reflexivity |]. split; [apply sublist_app; assumption |].
      intros e He. destruct (Hr2 e He) as (x & entering & s0 & before & -> & Hx).
      exists x, entering, s0, (t1 ++ before). rewrite <- app_assoc. split; auto.
    + exists t1. simpl. split; [reflexivity |].
      split; [apply sublist_inserts_r; exact Hs1 | exact Hr1].
Qed.

Lemma visit_summary (c : JsonCursor) :
  forall s l, run_summary handler (calls c) l (visit c (logged handler) (s, l)).
Proof.
  induction c as [c IH] using cursor_ind. intros s l.
  rewrite visit_unfold, calls_children. unfold logged at 1. simpl.
  destruct (handler c true s) as [s1 [v | e]] eqn:Hent.
  - assert (Hstop : run_summary handler
                      ((c, true) ::
                       (if on_data c then []
                        else flat_map calls (children c) ++ [(c, false)]))
                      l ((s1, l ++ [(c, true)]), Ok tt)).
    { exists [(c, true)]. simpl. split; [reflexivity |].
      split; [apply sublist_skip, sublist_nil_l | discriminate]. }
    destruct (is_False v); [exact Hstop |].
    unfold descend. destruct (on_data c) eqn:Hd; [exact Hstop |].
    destruct (for_each_summary (children c) IH s1 (l ++ [(c, true)]))
      as (t2 & Hl2 & Hs2 & Hr2).
    unfold bind.
    destruct (for_each _ (children c) (s1, l ++ [(c, true)])) as [[s2 l2] [[] | e2]];
      simpl in Hl2, Hr2; subst l2.
    + unfold logged. simpl.
      destruct (handler c false s2) as [s3 [v' | e']] eqn:Hexit; simpl.
      * exists ((c, true) :: t2 ++ [(c, false)]). simpl.
        split; [rewrite <- !app_assoc; reflexivity |].
        split; [| discriminate].
        apply sublist_skip, sublist_app; [exact Hs2 | reflexivity].
      * exists ((c, true) :: t2 ++ [(c, false)]). simpl.
        split; [rewrite <- !app_assoc; reflexivity |].
        split; [apply sublist_skip, sublist_app; [exact Hs2 | reflexivity] |].
        intros e He. injection He as <-.
        exists c, false, s2, ((c, true) :: t2). split; [reflexivity | exact Hexit].
    + exists ((c, true) :: t2). simpl.
      split; [rewrite <- app_assoc; reflexivity |].
      split; [apply sublist_skip, sublist_inserts_r; exact Hs2 |].
      intros e He. destruct (Hr2 e He) as (x & entering & s0 & before & -> & Hx).
      exists x, entering, s0, ((c, true) :: before). split; [reflexivity | exact Hx].
  - exists [(c, true)]. simpl. split; [reflexivity |].
    split; [apply sublist_skip, sublist_nil_l |].
    intros e' He. injection He as <-.
    exists c, true, s, []. split; [reflexivity | exact Hent].
Qed.
End VisitAnyHandler.

(** X7. [visit] raises only what the handler raises, and stops there: when
    a traversal ends in the exception [e], the last call it made is a call
    in which the handler raised [e], and the state of the handler is the one
    that call left; nothing runs after it. *)
Theorem visit_raise_is_handler_raise :
  forall (St : Type) (handler : Handler St) (c : JsonCursor)
         (s s' : St) (l l' : list Call) (e : PyExc),
    visit c (logged handler) (s, l) = ((s', l'), Raise e) ->
    exists x entering s0 before,
      l' = l ++ before ++ [(x, entering)] /\
      handler x entering s0 = (s', Raise e).
Proof.
  intros St handler c s s' l l' e Hv.
  destruct (visit_summary handler c s l) as (t & Hl & _ & Hr).
  rewrite Hv in Hl, Hr. simpl in Hl, Hr.
  destruct (Hr e eq_refl) as (x & entering & s0 & before & -> & Hx).
  exists x, entering, s0, before. split; [exact Hl | exact Hx].
Qed.

(** The theorem at [[1, 2, 3]] and a handler that raises at [2]: the log
    ends with the entering call at [2]; [3] is not visited and the list gets
    no exit call. *)
Lemma visit_raise_is_handler_raise_witness :
  exists x entering s0 before,
    [(mkCursor (PyList [PyInt 1; PyInt 2; PyInt 3]) [], true);
     (mkCursor (PyInt 1) [SIdx 0], true);
     (mkCursor (PyInt 2) [SIdx 1], true)]
    = [] ++ before ++ [(x, entering)] /\
    raise_at_two x entering s0 = (tt, Raise (Exception "ValueError" "two")).
Proof.
  apply (visit_raise_is_handler_raise unit raise_at_two
           (mkCursor (PyList [PyInt 1; PyInt 2; PyInt 3]) []) tt tt []).
  vm_compute. reflexivity.
Defined.

(** X8. Whatever the handler does (prune by any rule, keep state, raise),
    the calls [visit] makes are a sublist of the calls of the full
    traversal: calls at cursors of the subtree only, in the order of the
    full traversal, and with unique keys none of them twice. *)
Theorem visit_calls_within_tree :
  forall (St : Type) (handler : Handler St) (c : JsonCursor)
         (s : St) (l : list Call),
    exists t,
      snd (fst (visit c (logged handler) (s, l))) = l ++ t /\
      sublist t (calls c) /\
      (unique_keys (node c) = true -> NoDup t).
Proof.
  intros St handler c s l.
  destruct (visit_summary handler c s l) as (t & Hl & Hs & _).
  exists t. split; [exact Hl |]. split; [exact Hs |].
  intros Hu. exact (sublist_NoDup _ _ (calls_NoDup c Hu) Hs).
Qed.

(** ** The path as a list object: construction and navigation *)

Lemma new_list_fresh (l : Path) (σ : gmap nat Path) :
  σ !! fst (Aliasing.new_list l σ) = None.
Proof.
  unfold Aliasing.new_list. simpl. apply not_elem_of_dom. apply is_fresh.
Qed.

Lemma new_list_frame (l : Path) (σ : gmap nat Path) (r : nat) :
  is_Some (σ !! r) ->
  snd (Aliasing.new_list l σ) !! r = σ !! r /\ r <> fst (Aliasing.new_list l σ).
Proof.
  intros Hr.
  assert (Hne : r <> fst (Aliasing.new_list l σ)).
  { intros ->. rewrite new_list_fresh in Hr. destruct Hr as [x Hx]. discriminate Hx. }
  split; [| exact Hne].
  unfold Aliasing.new_list in *. simpl in *. apply lookup_insert_ne. congruence.
Qed.

(** X9. [self.path = path or []] shares a non-empty list with the caller
    and not an empty one: when the list passed as [path] is non-empty the
    cursor holds that very list, so a later change of it by the caller is a
    change of the cursor's path; when it is empty the cursor gets a new
    empty list and the caller's later changes do not reach it. *)
Theorem init_shares_nonempty_path :
  forall (n : PyVal) (r : nat) (σ : gmap nat Path) (f : Path -> Path),
    is_Some (σ !! r) ->
    (Aliasing.deref σ r <> [] ->
     Aliasing.__init__ n (Some r) σ = (Aliasing.mkHeapCursor n r, σ) /\
     Aliasing.deref (Aliasing.mutate f r (snd (Aliasing.__init__ n (Some r) σ)))
       (Aliasing.path_ref (fst (Aliasing.__init__ n (Some r) σ)))
     = f (Aliasing.deref σ r)) /\
    (Aliasing.deref σ r = [] ->
     Aliasing.path_ref (fst (Aliasing.__init__ n (Some r) σ)) <> r /\
     Aliasing.deref (snd (Aliasing.__init__ n (Some r) σ))
       (Aliasing.path_ref (fst (Aliasing.__init__ n (Some r) σ))) = [] /\
     Aliasing.deref (Aliasing.mutate f r (snd (Aliasing.__init__ n (Some r) σ)))
       (Aliasing.path_ref (fst (Aliasing.__init__ n (Some r) σ))) = []).
Proof.
  intros n r σ f Hr. unfold Aliasing.__init__. split.
  - intros Hne. destruct Hr as [l Hl].
    assert (Hd : Aliasing.deref σ r = l).
    { unfold Aliasing.deref, Aliasing.ref. rewrite Hl. reflexivity. }
    rewrite Hd in *. destruct l as [| seg rest]; [contradiction |].
    split; [reflexivity |]. simpl.
    unfold Aliasing.deref, Aliasing.mutate, Aliasing.ref.
    rewrite lookup_alter_eq, Hl. reflexivity.
  - intros ->.
    destruct (new_list_frame [] σ r Hr) as [_ Hne].
    pose proof (deref_new_list [] σ) as Hnew.
    destruct (Aliasing.new_list [] σ) as [r' σ']. simpl in *.
    split; [congruence |]. split; [exact Hnew |].
    unfold Aliasing.deref, Aliasing.mutate in *.
    rewrite lookup_alter_ne by exact Hne. exact Hnew.
Qed.

(** The theorem at a caller's list [["a"]]: appending to it afterwards
    changes the path of the cursor built on it. *)
Lemma init_shares_nonempty_path_witness :
  Aliasing.__init__ (PyInt 1) (Some 0%nat) {[ 0%nat := [SKey "a"] ]}
  = (Aliasing.mkHeapCursor (PyInt 1) 0%nat, {[ 0%nat := [SKey "a"] ]}) /\
  Aliasing.deref
    (Aliasing.mutate (fun l => l ++ [SKey "b"]) 0%nat
       (snd (Aliasing.__init__ (PyInt 1) (Some 0%nat) {[ 0%nat := [SKey "a"] ]})))
    (Aliasing.path_ref
       (fst (Aliasing.__init__ (PyInt 1) (Some 0%nat) {[ 0%nat := [SKey "a"] ]})))
  = Aliasing.deref {[ 0%nat := [SKey "a"] ]} 0%nat ++ [SKey "b"].
Proof.
  refine (proj1 (init_shares_nonempty_path (PyInt 1) 0%nat {[ 0%nat := [SKey "a"] ]}
                   (fun l => l ++ [SKey "b"]) _) _).
  - exists [SKey "a"]. vm_compute. reflexivity.
  - vm_compute. discriminate.
Defined.

Lemma init_new_path (child : PyVal) (l : Path) (seg : Segment) (σ : gmap nat Path) :
  Aliasing.__init__ child (Some (fst (Aliasing.new_list (l ++ [seg]) σ)))
    (snd (Aliasing.new_list (l ++ [seg]) σ))
  = (Aliasing.mkHeapCursor child (fst (Aliasing.new_list (l ++ [seg]) σ)),
     snd (Aliasing.new_list (l ++ [seg]) σ)).
Proof.
  unfold Aliasing.__init__. rewrite deref_new_list.
  destruct (l ++ [seg]) as [| a rest] eqn:Hl; [| reflexivity].
  apply app_eq_nil in Hl as [_ Hl]. discriminate Hl.
Qed.

(** What a successful step on stored cursors does to the store: one new
    list object, holding the parent's path and the segment. *)
Lemma step_Ok_store (c c' : Aliasing.Cursor) (seg : Segment) (σ σ' : gmap nat Path) :
  AliasingIndex.step c seg σ = (Ok c', σ') ->
  Aliasing.path_ref c' = fresh (dom σ) /\
  σ' = <[fresh (dom σ) := Aliasing.deref σ (Aliasing.path_ref c) ++ [seg]]> σ.
Proof.
  destruct seg as [name | index]; simpl.
  - unfold Aliasing.__getattr__.
    destruct (isinstance_dict (Aliasing.node_of c)); [| discriminate].
    destruct (dict_get name (items (Aliasing.node_of c))) as [child |]; [| discriminate].
    pose proof (init_new_path child (Aliasing.deref σ (Aliasing.path_ref c))
                  (SKey name) σ) as Hi.
    unfold Aliasing.new_list in *. cbn [fst snd] in Hi. rewrite Hi.
    intros H. injection H as <- <-. split; reflexivity.
  - unfold AliasingIndex.__getitem__.
    destruct (isinstance_list (Aliasing.node_of c)); [| discriminate].
    destruct ((0 <=? index) && (index <? len (Aliasing.node_of c))); [| discriminate].
    destruct (elements (Aliasing.node_of c) !! Z.to_nat index) as [child |];
      [| discriminate].
    pose proof (init_new_path child (Aliasing.deref σ (Aliasing.path_ref c))
                  (SIdx index) σ) as Hi.
    unfold Aliasing.new_list in *. cbn [fst snd] in Hi. rewrite Hi.
    intros H. injection H as <- <-. split; reflexivity.
Qed.

(** X10. A navigation step allocates and never overwrites: the cursor that
    [__getattr__] or [__getitem__] returns holds a new list object, its path
    is the parent's path with the segment appended, every list object that
    existed before is unchanged, and changing the child's list afterwards
    leaves the parent's path as it was. *)
Theorem step_allocates_fresh_path :
  forall (c c' : Aliasing.Cursor) (seg : Segment) (σ σ' : gmap nat Path)
         (f : Path -> Path),
    is_Some (σ !! Aliasing.path_ref c) ->
    AliasingIndex.step c seg σ = (Ok c', σ') ->
    σ !! Aliasing.path_ref c' = None /\
    Aliasing.deref σ' (Aliasing.path_ref c')
    = Aliasing.deref σ (Aliasing.path_ref c) ++ [seg] /\
    (forall r, is_Some (σ !! r) -> σ' !! r = σ !! r) /\
    Aliasing.deref (Aliasing.mutate f (Aliasing.path_ref c') σ') (Aliasing.path_ref c)
    = Aliasing.deref σ (Aliasing.path_ref c).
Proof.
  intros c c' seg σ σ' f Hc Hstep.
  destruct (step_Ok_store c c' seg σ σ' Hstep) as [Hr ->]. rewrite Hr.
  assert (Hfresh : σ !! fresh (dom σ) = None).
  { apply not_elem_of_dom. apply is_fresh. }
  assert (Hframe : forall r, is_Some (σ !! r) ->
                             <[fresh (dom σ) := Aliasing.deref σ (Aliasing.path_ref c)
                                                  ++ [seg]]> σ !! r = σ !! r).
  { intros r [x Hx]. apply lookup_insert_ne. intros Heq.
    rewrite <- Heq, Hfresh in Hx. discriminate Hx. }
  split; [exact Hfresh |]. split; [| split; [exact Hframe |]].
  - unfold Aliasing.deref. rewrite lookup_insert_eq. reflexivity.
  - unfold Aliasing.deref, Aliasing.mutate, Aliasing.ref in *.
    rewrite lookup_alter_ne.
    + rewrite (Hframe _ Hc). reflexivity.
    + intros Heq. rewrite <- Heq, Hfresh in Hc. destruct Hc as [x Hx]. discriminate Hx.
Qed.

(** The theorem at the root cursor of [{"a": 1}] and the step [a]. *)
Lemma step_allocates_fresh_path_witness :
  ({[ 0%nat := [] ]} : gmap nat Path) !! 1%nat = None /\
  Aliasing.deref (<[ 1%nat := [SKey "a"] ]> {[ 0%nat := [] ]}) 1%nat
  = Aliasing.deref {[ 0%nat := [] ]} 0%nat ++ [SKey "a"].
Proof.
  pose proof (step_allocates_fresh_path
                (Aliasing.mkHeapCursor (PyDict [("a", PyInt 1)]) 0%nat)
                (Aliasing.mkHeapCursor (PyInt 1) 1%nat) (SKey "a")
                {[ 0%nat := [] ]} (<[ 1%nat := [SKey "a"] ]> {[ 0%nat := [] ]})
                (fun l => l)) as H.
  refine ((fun H' => conj (proj1 H') (proj1 (proj2 H'))) (H _ _)).
  - exists []. vm_compute. reflexivity.
  - vm_compute. reflexivity.
Defined.

(** [__getitem__] on stored cursors is [__getitem__] of the pure model on
    the cursors they stand for. *)
Lemma getitem_abstract (σ : gmap nat Path) (c : Aliasing.Cursor) (index : Z) :
  match AliasingIndex.__getitem__ c index σ with
  | (Ok c', σ') => __getitem__ (Aliasing.abstract σ c) index = Ok (Aliasing.abstract σ' c')
  | (Raise e, σ') => __getitem__ (Aliasing.abstract σ c) index = Raise e /\ σ' = σ
  end.
Proof.
  unfold AliasingIndex.__getitem__, __getitem__.
  change (node (Aliasing.abstract σ c)) with (Aliasing.node_of c).
  change (path (Aliasing.abstract σ c)) with (Aliasing.deref σ (Aliasing.path_ref c)).
  destruct (isinstance_list (Aliasing.node_of c)); [| split; reflexivity].
  destruct ((0 <=? index) && (index <? len (Aliasing.node_of c))); [| split; reflexivity].
  destruct (elements (Aliasing.node_of c) !! Z.to_nat index) as [child |];
    [| split; reflexivity].
  pose proof (init_new_path child (Aliasing.deref σ (Aliasing.path_ref c))
                (SIdx index) σ) as Hi.
  pose proof (deref_new_list (Aliasing.deref σ (Aliasing.path_ref c) ++ [SIdx index]) σ)
    as Hnew.
  destruct (Aliasing.new_list _ σ) as [r σ1]. cbn [fst snd] in Hi, Hnew. rewrite Hi.
  unfold Aliasing.abstract. cbn [Aliasing.node_of Aliasing.path_ref].
  rewrite Hnew. reflexivity.
Qed.

(** ** [get_project_info] *)

Lemma find_app_first {A} (f : A -> bool) (l1 l2 : list A) :
  find f (l1 ++ l2) = match find f l1 with Some x => Some x | None => find f l2 end.
Proof.
  induction l1 as [| a l1 IH]; simpl; [reflexivity |].
  destruct (f a); [reflexivity | exact IH].
Qed.

Lemma project_matches_iff (project_name : string) (x : JsonCursor) :
  truthy (project_matches project_name x) = true
  <-> exists kvs, node x = PyDict kvs /\
                  (dict_get "name" kvs = Some (PyStr project_name) \/
                   dict_get "id" kvs = Some (PyStr project_name)).
Proof.
  assert (Heq : forall key kvs,
             eq_str (dict_get_or_None key kvs) project_name = true
             <-> dict_get key kvs = Some (PyStr project_name)).
  { intros key kvs. unfold dict_get_or_None.
    destruct (dict_get key kvs) as [v |]; [| split; discriminate].
    destruct v; simpl; try (split; discriminate).
    rewrite String.eqb_eq. split; [intros -> | intros H; injection H as ->]; reflexivity. }
  unfold project_matches. destruct (node x) eqn:Hn; simpl;
    try (split; [discriminate | intros (kvs & H & _); discriminate H]).
  rewrite orb_true_iff, !Heq. split.
  - intros H. exists entries. split; [reflexivity | exact H].
  - intros (kvs & H & Hm). injection H as <-. exact Hm.
Qed.

(** X11. [get_project_info] returns the first dict of the fetched tree, in
    depth-first pre-order and at any depth, whose ["name"] or ["id"] is the
    [str] [project_name], handed to [result_from_data]; it returns [None]
    when there is no such dict, and raises only what [result_from_data]
    raises. *)
Theorem get_project_info_first_match :
  forall (R : Type) (result_from_data : PyVal -> Res R)
         (testmo_projects : PyVal) (project_name : string),
    get_project_info result_from_data testmo_projects project_name
    = match find (fun x => truthy (project_matches project_name x))
              (preorder (__init__ testmo_projects None)) with
      | None => Ok None
      | Some x =>
          match result_from_data (node x) with
          | Ok r => Ok (Some r)
          | Raise e => Raise e
          end
      end /\
    (forall x, truthy (project_matches project_name x) = true
               <-> exists kvs, node x = PyDict kvs /\
                               (dict_get "name" kvs = Some (PyStr project_name) \/
                                dict_get "id" kvs = Some (PyStr project_name))).
Proof.
  intros R result_from_data testmo_projects project_name.
  split; [| exact (project_matches_iff project_name)].
  unfold get_project_info. rewrite search_find.
  destruct (find _ _); reflexivity.
Qed.

Lemma terminal_subtree (v : PyVal) (q : Path) :
  negb (isinstance_Mapping v)
  && negb (isinstance_Sequence v && negb (isinstance_str_bytes_bytearray v)) = true ->
  subtree v q = [mkCursor v q] /\ isinstance_dict v = false.
Proof. destruct v; simpl; intros H; try discriminate H; split; reflexivity. Qed.

Lemma find_record_fields (project_name : string) (q : Path)
    (kvs : list (string * PyVal)) (rest : list JsonCursor) :
  forallb (fun kv => negb (isinstance_Mapping (snd kv))
                     && negb (isinstance_Sequence (snd kv)
                              && negb (isinstance_str_bytes_bytearray (snd kv)))) kvs
  = true ->
  find (fun x => truthy (project_matches project_name x))
    (flat_map (fun kv => subtree (snd kv) (q ++ [SKey (fst kv)])) kvs ++ rest)
  = find (fun x => truthy (project_matches project_name x)) rest.
Proof.
  induction kvs as [| [k v] kvs IH]; simpl; [reflexivity |].
  intros H. apply andb_true_iff in H as [Hv Hkvs].
  destruct (terminal_subtree v (q ++ [SKey k]) Hv) as [-> Hd]. simpl.
  unfold project_matches at 1. simpl. rewrite Hd. simpl. exact (IH Hkvs).
Qed.

Lemma find_cons_if {A} (f : A -> bool) (a : A) (l : list A) :
  find f (a :: l) = if f a then Some a else find f l.
Proof. reflexivity. Qed.

Lemma find_in_records (project_name : string) (q : Path) (ps : list PyVal) :
  Forall (fun p => numbered_record p = true) ps ->
  forall i,
    option_map node
      (find (fun x => truthy (project_matches project_name x))
         (flat_enumerate (fun i x => subtree x (q ++ [SIdx (Z.of_nat i)])) i ps))
    = find (fun p => eq_str (dict_get_or_None "name" (items p)) project_name) ps.
Proof.
  induction 1 as [| p ps Hp _ IH]; intros i; [reflexivity |].
  destruct p; try discriminate Hp. simpl in Hp.
  apply andb_true_iff in Hp as [Hfields Hid].
  assert (Hidf : eq_str (dict_get_or_None "id" entries) project_name = false).
  { destruct (dict_get_or_None "id" entries); try reflexivity. discriminate Hid. }
  assert (Hhead : truthy (project_matches project_name
                            (mkCursor (PyDict entries) (q ++ [SIdx (Z.of_nat i)])))
                  = eq_str (dict_get_or_None "name" entries) project_name).
  { unfold project_matches. simpl. rewrite Hidf, orb_false_r. reflexivity. }
  change (flat_enumerate (fun i x => subtree x (q ++ [SIdx (Z.of_nat i)])) i
            (PyDict entries :: ps))
    with (mkCursor (PyDict entries) (q ++ [SIdx (Z.of_nat i)]) ::
          (flat_map
             (fun kv => subtree (snd kv) ((q ++ [SIdx (Z.of_nat i)]) ++ [SKey (fst kv)]))
             entries
           ++ flat_enumerate (fun i x => subtree x (q ++ [SIdx (Z.of_nat i)])) (S i) ps)).
  rewrite !find_cons_if, Hhead. simpl items.
  destruct (eq_str (dict_get_or_None "name" entries) project_name); [reflexivity |].
  rewrite find_record_fields by exact Hfields. exact (IH (S i)).
Qed.

(** X12. On a list of project records whose values are terminals and whose
    ids are not [str]s (numbers, as the REST reply has them),
    [get_project_info] finds a project by its name only: the result is the
    first record of the list whose ["name"] is [project_name], and the
    ["id"] of a record never makes it match. *)
Theorem get_project_info_by_name_only :
  forall (R : Type) (result_from_data : PyVal -> Res R)
         (projects : list PyVal) (project_name : string),
    Forall (fun p => numbered_record p = true) projects ->
    get_project_info result_from_data (PyList projects) project_name
    = match find (fun p => eq_str (dict_get_or_None "name" (items p)) project_name)
              projects with
      | None => Ok None
      | Some p =>
          match result_from_data p with
          | Ok r => Ok (Some r)
          | Raise e => Raise e
          end
      end.
Proof.
  intros R result_from_data projects project_name Hrec.
  unfold get_project_info. rewrite search_find. unfold preorder. simpl.
  pose proof (find_in_records project_name [] projects Hrec 0%nat) as Hf.
  simpl in Hf. rewrite <- Hf.
  destruct (find _ _); reflexivity.
Qed.

(** The theorem at [[{"id": 44, "name": "Demo"}]] and the name ["44"]: the
    project is not found by its id. *)
Lemma get_project_info_by_name_only_witness :
  get_project_info (fun v => Ok v) (PyList [PyDict [("id", PyInt 44); ("name", PyStr "Demo")]])
    "44"
  = Ok None.
Proof.
  refine (get_project_info_by_name_only PyVal (fun v => Ok v)
            [PyDict [("id", PyInt 44); ("name", PyStr "Demo")]] "44" _).
  repeat constructor.
Defined.

(** ** [dict_entries] and [dict_to_namespace] *)

Lemma dict_set_new (k : string) (v : PyVal) (acc : list (string * PyVal)) :
  ~ In k (map fst acc) -> dict_set k v acc = acc ++ [(k, v)].
Proof.
  induction acc as [| [k' v'] acc IH]; simpl; [reflexivity |].
  intros Hk. destruct (String.eqb_spec k' k) as [-> | Hne].
  - exfalso. apply Hk. left. reflexivity.
  - rewrite IH; [reflexivity |]. intros H. apply Hk. right. exact H.
Qed.

Lemma dict_entries_fold (args : list string) (d : list (string * PyVal)) :
  forall acc,
    NoDup (map fst d) ->
    (forall k, In k (map fst d) -> ~ In k (map fst acc)) ->
    fold_left
      (fun result kv =>
         if existsb (String.eqb (fst kv)) args
         then dict_set (fst kv) (snd kv) result
         else result) d acc
    = acc ++ List.filter (fun kv => existsb (String.eqb (fst kv)) args) d.
Proof.
  induction d as [| [k v] d IH]; intros acc Hnd Hfresh; simpl.
  - rewrite app_nil_r. reflexivity.
  - simpl in Hnd. apply NoDup_cons in Hnd as [Hk Hnd].
    destruct (existsb (String.eqb k) args).
    + rewrite dict_set_new by (apply Hfresh; left; reflexivity).
      rewrite IH; [rewrite <- app_assoc; reflexivity | exact Hnd |].
      intros k' Hk' Hin. rewrite map_app, in_app_iff in Hin.
      destruct Hin as [Hin | [<- | []]].
      * exact (Hfresh k' (or_intror Hk') Hin).
      * apply Hk. apply list_elem_of_In. exact Hk'.
    + apply IH; [exact Hnd |]. intros k' Hk'. apply Hfresh. right. exact Hk'.
Qed.

Lemma dict_get_filter (args : list string) (k : string) (d : list (string * PyVal)) :
  dict_get k (List.filter (fun kv => existsb (String.eqb (fst kv)) args) d)
  = if existsb (String.eqb k) args then dict_get k d else None.
Proof.
  induction d as [| [k' v'] d IH]; simpl.
  - destruct (existsb _ args); reflexivity.
  - destruct (existsb (String.eqb k') args) eqn:Hsel; simpl.
    + destruct (String.eqb_spec k' k) as [-> | Hne]; [rewrite Hsel; reflexivity | exact IH].
    + destruct (String.eqb_spec k' k) as [-> | Hne]; [| exact IH].
      rewrite IH, Hsel. reflexivity.
Qed.

Lemma NoDup_filter_keys (sel : string * PyVal -> bool) (d : list (string * PyVal)) :
  NoDup (map fst d) -> NoDup (map fst (List.filter sel d)).
Proof.
  induction d as [| kv d IH]; simpl; [auto |].
  intros Hnd. apply NoDup_cons in Hnd as [Hk Hnd].
  destruct (sel kv); simpl; [| exact (IH Hnd)].
  apply NoDup_cons. split; [| exact (IH Hnd)].
  intros Hin. apply Hk.
  apply list_elem_of_In in Hin. apply list_elem_of_In.
  apply in_map_iff in Hin as (kv' & Hf & Hin).
  apply in_map_iff. exists kv'. split; [exact Hf |].
  apply filter_In in Hin. exact (proj1 Hin).
Qed.

(** X13. [dict_entries(d, *args)] is [d] restricted to the keys in [args]:
    it keeps the entries of [d] whose key is one of [args], in the order of
    [d], so that looking a key up in the result gives the value [d] has for
    it when the key is in [args] and nothing otherwise; names in [args]
    that are not keys of [d] are ignored. *)
Theorem dict_entries_restricts :
  forall (the_dic : list (string * PyVal)) (args : list string),
    NoDup (map fst the_dic) ->
    dict_entries the_dic args
    = List.filter (fun kv => existsb (String.eqb (fst kv)) args) the_dic /\
    (forall k, dict_get k (dict_entries the_dic args)
               = if existsb (String.eqb k) args then dict_get k the_dic else None) /\
    NoDup (map fst (dict_entries the_dic args)).
Proof.
  intros the_dic args Hnd.
  assert (Heq : dict_entries the_dic args
                = List.filter (fun kv => existsb (String.eqb (fst kv)) args) the_dic).
  { unfold dict_entries. rewrite dict_entries_fold; [reflexivity | exact Hnd |].
    intros k _ []. }
  split; [exact Heq |]. rewrite Heq. split.
  - intros k. apply dict_get_filter.
  - apply NoDup_filter_keys. exact Hnd.
Qed.

(** The theorem at [{"a": 1, "b": 2, "c": 3}] and the names [c], [a], [z]. *)
Lemma dict_entries_restricts_witness :
  dict_entries [("a", PyInt 1); ("b", PyInt 2); ("c", PyInt 3)] ["c"; "a"; "z"]
  = List.filter (fun kv => existsb (String.eqb (fst kv)) ["c"; "a"; "z"])
      [("a", PyInt 1); ("b", PyInt 2); ("c", PyInt 3)].
Proof.
  refine (proj1 (dict_entries_restricts
                   [("a", PyInt 1); ("b", PyInt 2); ("c", PyInt 3)] ["c"; "a"; "z"] _)).
  refine (bool_decide_unpack _ _). vm_compute. exact I.
Defined.

Lemma ns_get_map (name : string) (kvs : list (string * PyVal)) :
  ns_get name (map (fun kv => (fst kv, dict_to_namespace (snd kv))) kvs)
  = option_map dict_to_namespace (dict_get name kvs).
Proof.
  induction kvs as [| [k v] kvs IH]; simpl; [reflexivity |].
  destruct (String.eqb k name); [reflexivity | exact IH].
Qed.

Lemma lookup_map {A B} (f : A -> B) (l : list A) :
  forall i, map f l !! i = option_map f (l !! i).
Proof.
  induction l as [| a l IH]; intros [| i]; simpl; auto.
Qed.

Lemma ns_step_step (c c' : JsonCursor) (seg : Segment) :
  step c seg = Ok c' ->
  ns_step (dict_to_namespace (node c)) seg = Some (dict_to_namespace (node c')).
Proof.
  destruct c as [n p]. destruct seg as [name | index]; simpl.
  - unfold __getattr__. simpl. destruct n; simpl; try discriminate.
    rewrite ns_get_map.
    destruct (dict_get name entries) as [child |]; [| discriminate].
    intros H. injection H as <-. reflexivity.
  - unfold __getitem__, len. simpl. destruct n; simpl; try discriminate.
    rewrite length_map, lookup_map.
    destruct ((0 <=? index) && (index <? Z.of_nat (length elems))); [| discriminate].
    destruct (elems !! Z.to_nat index) as [child |]; [| discriminate].
    intros H. injection H as <-. reflexivity.
Qed.

(** X14. [dict_to_namespace] keeps what the cursor can reach: whenever the
    navigation of a path with [__getattr__] and [__getitem__] arrives at a
    cursor, the same accesses on [dict_to_namespace] of the start node,
    attributes of the namespaces and elements of the lists, arrive at
    [dict_to_namespace] of that cursor's node; at a terminal this is the
    terminal itself. *)
Theorem dict_to_namespace_navigate :
  forall (p : Path) (c c' : JsonCursor),
    navigate c p = Ok c' ->
    ns_navigate (dict_to_namespace (node c)) p = Some (dict_to_namespace (node c')) /\
    (on_data c' = true -> dict_to_namespace (node c') = NsValue (node c')).
Proof.
  induction p as [| seg p IH]; intros c c' Hnav; simpl in *.
  - injection Hnav as <-. split; [reflexivity |].
    destruct c as [n q]. unfold on_data, on_dict, on_list. simpl.
    destruct n; simpl; intros H; try discriminate H; reflexivity.
  - destruct (step c seg) as [c1 | e] eqn:Hstep; [| discriminate].
    rewrite (ns_step_step c c1 seg Hstep). exact (IH c1 c' Hnav).
Qed.

(** The theorem at [{"user": {"tags": ["x", "y"]}}] and the path
    [user], [tags], [1]. *)
Lemma dict_to_namespace_navigate_witness :
  ns_navigate
    (dict_to_namespace (PyDict [("user", PyDict [("tags", PyList [PyStr "x"; PyStr "y"])])]))
    [SKey "user"; SKey "tags"; SIdx 1]
  = Some (dict_to_namespace (PyStr "y")).
Proof.
  refine (proj1 (dict_to_namespace_navigate [SKey "user"; SKey "tags"; SIdx 1]
                   (mkCursor (PyDict [("user", PyDict [("tags", PyList [PyStr "x"; PyStr "y"])])]) [])
                   (mkCursor (PyStr "y") [SKey "user"; SKey "tags"; SIdx 1]) _)).
  vm_compute. reflexivity.
Defined.

(** ** [extend_endpoint] *)

Lemma string_app_nil (s : string) : EmptyString +:+ s = s.
Proof. reflexivity. Qed.

Lemma string_app_cons (a : ascii) (s t : string) :
  String a s +:+ t = String a (s +:+ t).
Proof. reflexivity. Qed.

Lemma string_app_assoc (a b c : string) : (a +:+ b) +:+ c = a +:+ (b +:+ c).
Proof.
  induction a as [| x a IH]; [reflexivity |].
  rewrite !string_app_cons, IH. reflexivity.
Qed.

Lemma lstrip_clean (s : string) : starts_with_slash s = false -> lstrip_slash s = s.
Proof.
  destruct s as [| a s]; simpl; [reflexivity |].
  destruct (Ascii.eqb_spec a "/"%char) as [-> | Hne]; [discriminate |].
  intros _. destruct a as [[] [] [] [] [] [] [] []]; try reflexivity.
  exfalso. apply Hne. reflexivity.
Qed.

Lemma lstrip_slashes (n : nat) (s : string) :
  lstrip_slash (slashes n +:+ s) = lstrip_slash s.
Proof.
  induction n as [| n IH]; [reflexivity |].
  simpl slashes. rewrite string_app_cons. simpl. exact IH.
Qed.

Lemma rstrip_clean (s : string) : ends_with_slash s = false -> rstrip_slash s = s.
Proof.
  induction s as [| a s IH]; simpl; [reflexivity |].
  destruct s as [| b s].
  - simpl. intros ->. reflexivity.
  - intros H. rewrite (IH H). reflexivity.
Qed.

Lemma rstrip_only_slashes (n : nat) : rstrip_slash (slashes n) = EmptyString.
Proof. induction n as [| n IH]; simpl; [reflexivity | rewrite IH; reflexivity]. Qed.

Lemma rstrip_cons (a : ascii) (s : string) :
  rstrip_slash (String a s)
  = match rstrip_slash s with
    | EmptyString => if Ascii.eqb a "/"%char then EmptyString else String a EmptyString
    | t => String a t
    end.
Proof. reflexivity. Qed.

Lemma rstrip_slashes (s : string) (n : nat) :
  ends_with_slash s = false -> rstrip_slash (s +:+ slashes n) = s.
Proof.
  induction s as [| a s IH].
  - intros _. rewrite string_app_nil. apply rstrip_only_slashes.
  - rewrite string_app_cons. destruct s as [| b s].
    + rewrite string_app_nil. simpl. intros Ha.
      rewrite rstrip_only_slashes, Ha. reflexivity.
    + intros H. change (ends_with_slash (String a (String b s)))
        with (ends_with_slash (String b s)) in H.
      specialize (IH H). rewrite rstrip_cons, IH. reflexivity.
Qed.

Lemma ends_with_slash_app (x a : string) :
  a <> EmptyString -> ends_with_slash (x +:+ a) = ends_with_slash a.
Proof.
  intros Ha. induction x as [| c x IH]; [reflexivity |].
  rewrite string_app_cons. simpl.
  destruct (x +:+ a) as [| d t] eqn:Hxa; [| exact IH].
  destruct x; [rewrite string_app_nil in Hxa; contradiction |].
  rewrite string_app_cons in Hxa. discriminate Hxa.
Qed.

Lemma starts_with_slash_app (a y : string) :
  a <> EmptyString -> starts_with_slash (a +:+ y) = starts_with_slash a.
Proof. destruct a; [contradiction | reflexivity]. Qed.

(** X15. Extending an endpoint twice is extending it by the list: for path
    segments [a] and [b] that neither start nor end with a slash ([a] not
    empty), [extend_endpoint(a)] followed by [extend_endpoint(b)] gives the
    endpoint of [extend_endpoint([a, b])], the endpoint without its trailing
    slashes followed by [/a/b]. *)
Theorem extend_endpoint_twice :
  forall (endpoint a b : string),
    a <> EmptyString ->
    starts_with_slash a = false -> ends_with_slash a = false ->
    starts_with_slash b = false ->
    extend_endpoint (extend_endpoint endpoint (inl a)) (inl b)
    = extend_endpoint endpoint (inr [a; b]) /\
    extend_endpoint endpoint (inr [a; b])
    = rstrip_slash endpoint +:+ "/" +:+ a +:+ "/" +:+ b.
Proof.
  intros endpoint a b Ha Hsa Hea Hsb. unfold extend_endpoint. simpl join_slash.
  rewrite (lstrip_clean a Hsa), (lstrip_clean b Hsb).
  rewrite (lstrip_clean (a +:+ "/" +:+ b))
    by (rewrite starts_with_slash_app; [exact Hsa | exact Ha]).
  rewrite (rstrip_clean (rstrip_slash endpoint +:+ "/" +:+ a)).
  - rewrite !string_app_assoc. split; reflexivity.
  - rewrite <- string_app_assoc, ends_with_slash_app; [exact Hea | exact Ha].
Qed.

(** The theorem at the endpoint of [testmo_project_runs_request(44)]:
    [projects], then [44], then [runs]. *)
Lemma extend_endpoint_twice_witness :
  extend_endpoint (extend_endpoint "projects" (inl "44")) (inl "runs")
  = extend_endpoint "projects" (inr ["44"; "runs"]).
Proof.
  refine (proj1 (extend_endpoint_twice "projects" "44" "runs" _ _ _ _)).
  - discriminate.
  - reflexivity.
  - reflexivity.
  - reflexivity.
Defined.

(** X16. [extend_endpoint] puts exactly one slash at the junction: the
    slashes the endpoint ends with and the slashes the extension starts
    with are dropped, however many there are. *)
Theorem extend_endpoint_one_slash :
  forall (endpoint extension : string) (n m : nat),
    ends_with_slash endpoint = false ->
    starts_with_slash extension = false ->
    extend_endpoint (endpoint +:+ slashes n) (inl (slashes m +:+ extension))
    = endpoint +:+ "/" +:+ extension.
Proof.
  intros endpoint extension n m He Hs. unfold extend_endpoint.
  rewrite (rstrip_slashes endpoint n He), lstrip_slashes, (lstrip_clean extension Hs).
  reflexivity.
Qed.

(** The theorem at [projects//] and [/44]. *)
Lemma extend_endpoint_one_slash_witness :
  extend_endpoint ("projects" +:+ slashes 2) (inl (slashes 1 +:+ "44"))
  = "projects" +:+ "/" +:+ "44".
Proof.
  apply (extend_endpoint_one_slash "projects" "44" 2 1); reflexivity.
Defined.

(** ** Search and visit on subtrees *)

Lemma scan_None_iff (predicate : Predicate) (cs : list JsonCursor) :
  scan predicate cs = Ok None
  <-> forall y, In y cs -> exists v, predicate y = Ok v /\ truthy v = false.
Proof.
  induction cs as [| c cs IH]; simpl.
  - split; [intros _ y [] | reflexivity].
  - destruct (predicate c) as [v | e] eqn:Hc.
    + destruct (truthy v) eqn:Hv.
      * split; [discriminate |]. intros H.
        destruct (H c (or_introl eq_refl)) as (w & Hw & Hf).
        rewrite Hc in Hw. injection Hw as <-. rewrite Hf in Hv. discriminate Hv.
      * rewrite IH. split.
        -- intros H y [<- | Hy]; [exists v; rewrite Hc; auto | exact (H y Hy)].
        -- intros H y Hy. apply H. right. exact Hy.
    + split; [discriminate |]. intros H.
      destruct (H c (or_introl eq_refl)) as (w & Hw & _).
      rewrite Hc in Hw. discriminate Hw.
Qed.

Lemma scan_Some_truthy (predicate : Predicate) (cs : list JsonCursor) (r : JsonCursor) :
  scan predicate cs = Ok (Some r) -> exists v, predicate r = Ok v /\ truthy v = true.
Proof.
  induction cs as [| c cs IH]; simpl; [discriminate |].
  destruct (predicate c) as [v | e] eqn:Hc; [| discriminate].
  destruct (truthy v) eqn:Hv; [| exact IH].
  intros H. injection H as <-. exists v. split; [exact Hc | exact Hv].
Qed.

(** X17. Searches agree on subtrees: a cursor that [search] returns is
    returned again by the same search started at that cursor, and a search
    that finds nothing in a subtree finds nothing when started at any cursor
    of that subtree; this holds for every predicate, also one that raises
    elsewhere. *)
Theorem search_agrees_on_subtrees :
  forall (predicate : Predicate) (c : JsonCursor),
    (forall r, search c predicate = Ok (Some r) -> search r predicate = Ok (Some r)) /\
    (search c predicate = Ok None ->
     forall x, In x (preorder c) -> search x predicate = Ok None).
Proof.
  intros predicate c. unfold search. split.
  - intros r H. rewrite search_scan in H.
    destruct (scan_Some_truthy predicate _ r H) as (v & Hv & Ht).
    rewrite search_scan.
    pose proof (preorder_children r) as Hp. unfold preorder in Hp.
    rewrite Hp. simpl. rewrite Hv, Ht. reflexivity.
  - intros H x Hx. rewrite search_scan in *.
    change (subtree (node c) (path c)) with (preorder c) in H.
    change (subtree (node x) (path x)) with (preorder x).
    rewrite scan_None_iff in *. intros y Hy.
    apply H. exact (preorder_trans c x y Hx Hy).
Qed.

Lemma entered_app (l1 l2 : list Call) : entered (l1 ++ l2) = entered l1 ++ entered l2.
Proof. unfold entered. rewrite List.filter_app, map_app. reflexivity. Qed.

Lemma entered_flat_map (chs : list JsonCursor) :
  (forall ch, In ch chs -> entered (calls ch) = preorder ch) ->
  entered (flat_map calls chs) = flat_map preorder chs.
Proof.
  induction chs as [| ch chs IH]; intros H; [reflexivity |].
  cbn [flat_map]. rewrite entered_app, (H ch (or_introl eq_refl)), IH; [reflexivity |].
  intros x Hx. apply H. right. exact Hx.
Qed.

Lemma entered_calls_preorder (c : JsonCursor) : entered (calls c) = preorder c.
Proof.
  induction c as [c IH] using cursor_ind.
  rewrite calls_children, preorder_children.
  destruct (on_data c) eqn:Hd.
  - rewrite (children_on_data c Hd). reflexivity.
  - change ((c, true) :: flat_map calls (children c) ++ [(c, false)])
      with ([(c, true)] ++ flat_map calls (children c) ++ [(c, false)]).
    rewrite !entered_app, (entered_flat_map (children c) IH).
    unfold entered. simpl. rewrite app_nil_r. reflexivity.
Qed.

(** X18. [search] and [visit] go through the tree in the same order: the
    cursors that a traversal with a handler that neither prunes nor raises
    enters, in the order of its entering calls, are the cursors [search]
    tests, so that [search] returns the first of them at which the
    predicate is truthy. *)
Theorem search_follows_visit_order :
  forall (St : Type) (handler : Handler St) (predicate : Predicate)
         (c : JsonCursor) (s : St),
    non_pruning handler ->
    entered (snd (fst (visit c (logged handler) (s, [])))) = preorder c /\
    search c predicate
    = scan predicate (entered (snd (fst (visit c (logged handler) (s, []))))).
Proof.
  intros St handler predicate c s Hnp.
  destruct (visit_logged_calls handler Hnp c s []) as [s' Hv].
  rewrite Hv. simpl. rewrite entered_calls_preorder.
  split; [reflexivity |]. unfold search, preorder. apply search_scan.
Qed.

(** The theorem at [[1, 2]], the handler that returns [None] and the
    predicate that matches [1]. *)
Lemma search_follows_visit_order_witness :
  search (mkCursor (PyList [PyInt 1; PyInt 2]) []) one_or_raise
  = scan one_or_raise
      (entered (snd (fst (visit (mkCursor (PyList [PyInt 1; PyInt 2]) [])
                            (logged silent_handler) (tt, []))))).
Proof.
  exact (proj2 (search_follows_visit_order unit silent_handler one_or_raise
                  (mkCursor (PyList [PyInt 1; PyInt 2]) []) tt
                  silent_handler_non_pruning)).
Defined.
